(** * Medical assistant back end: chatbot dispatcher, top-N ranking, doctor lookup

    A shallow embedding of the request-handling logic of [api.py] and of
    [doctors_api.py], together with the properties the specification states
    about them.  [main.py] holds the same [predict_top], [chatbot] and
    [chat_endpoint]: the same tests in the same order with the same replies
    (two of its trigger lists name their two phrases in the other order,
    which [any] does not see).

    - Python strings are sequences of Unicode code points ([list N]); the
      literals of the source are written as UTF-8 text and decoded by [py].
    - The two module globals [current_lang] and [chat_history] are the fields
      of an explicit [world]; the handlers run in a state-and-exception monad
      over it.
    - The pretrained classifier, the translation and language-detection
      services, the label encoder and the two CSV tables are external to the
      repository: they are the fields of a [deployment] record over which
      every definition and theorem is parametric.
    - The doctor directory is the [http_outcome] of the single GET request. *)

From Stdlib Require Import ZArith NArith QArith List String Ascii Bool Lia.
From Stdlib Require Import Sorting.Sorted Sorting.Permutation DecimalString.
From stdpp Require Import base option list gmap.
Import ListNotations.

(** ** Python strings *)

Abbreviation str := (list N).

(** One step of UTF-8 decoding: [need] continuation bytes are still expected
    for the code point accumulated in [acc]. *)
Definition utf8_step (st : nat * N * str) (b : N) : nat * N * str :=
  let '(need, acc, out) := st in
  match need with
  | O =>
      if (b <? 128)%N then (O, 0%N, b :: out)
      else if (b <? 224)%N then (1%nat, N.land b 31, out)
      else if (b <? 240)%N then (2%nat, N.land b 15, out)
      else (3%nat, N.land b 7, out)
  | S O => (O, 0%N, (acc * 64 + N.land b 63)%N :: out)
  | S k => (k, (acc * 64 + N.land b 63)%N, out)
  end.

Fixpoint bytes_of (s : string) : list N :=
  match s with
  | EmptyString => []
  | String a s' => N_of_ascii a :: bytes_of s'
  end.

(** [py "text"] is the Python string literal ["text"]. *)
Definition py (s : string) : str :=
  rev (snd (fold_left utf8_step (bytes_of s) (O, 0%N, []))).

Definition nl : str := [10%N].

Fixpoint str_eqb (a b : str) : bool :=
  match a, b with
  | [], [] => true
  | x :: a', y :: b' => (x =? y)%N && str_eqb a' b'
  | _, _ => false
  end.

(** [s.startswith(w)] *)
Fixpoint startswith (s w : str) {struct w} : bool :=
  match w, s with
  | [], _ => true
  | _ :: _, [] => false
  | x :: w', y :: s' => (x =? y)%N && startswith s' w'
  end.

(** [w in s]: [w] occurs in [s] as a contiguous run of code points. *)
Fixpoint contains (s w : str) : bool :=
  startswith s w ||
  match s with
  | [] => false
  | _ :: s' => contains s' w
  end.

(** [any(word in s for word in words)] *)
Definition any_in (s : str) (words : list str) : bool :=
  existsb (contains s) words.

(** [str.lower()].  An ASCII letter is lower-cased here.  Every other code
    point is lower-cased by the Unicode database, which is not part of the
    repository: [tbl before c after] is what the code point [c] becomes
    between the text [before] and [after] it (the full case mapping may yield
    several code points, and for U+03A3 it depends on the neighbours). *)
Definition ascii_lower (c : N) : N :=
  if (65 <=? c)%N && (c <=? 90)%N then (c + 32)%N else c.

Fixpoint lower_from (tbl : str -> N -> str -> str) (before s : str) : str :=
  match s with
  | [] => []
  | c :: after =>
      (if (c <? 128)%N then [ascii_lower c] else tbl before c after)
        ++ lower_from tbl (before ++ [c]) after
  end.

Definition lower (tbl : str -> N -> str -> str) (s : str) : str :=
  lower_from tbl [] s.

(** [str.isspace()] of one code point, as CPython's [_PyUnicode_IsWhitespace]
    lists them. *)
Definition is_space (c : N) : bool :=
  ((9 <=? c) && (c <=? 13) || (28 <=? c) && (c <=? 32)
   || (c =? 133) || (c =? 160) || (c =? 5760)
   || (8192 <=? c) && (c <=? 8202)
   || (c =? 8232) || (c =? 8233) || (c =? 8239) || (c =? 8287)
   || (c =? 12288))%N.

Fixpoint lstrip (s : str) : str :=
  match s with
  | [] => []
  | c :: s' => if is_space c then lstrip s' else s
  end.

(** [s.strip()] *)
Definition strip (s : str) : str := rev (lstrip (rev (lstrip s))).

(** [str(n)] of a natural number and the conversion [{q:.2f}] of a finite
    float, which rounds the exact value half to even. *)
Definition str_of_nat (n : nat) : str :=
  bytes_of (NilEmpty.string_of_uint (Nat.to_uint n)).

Definition round_half_even (q : Q) : Z :=
  let a := Qnum q in
  let b := Zpos (Qden q) in
  let fl := (a / b)%Z in
  let r := (2 * (a mod b))%Z in
  if (r <? b)%Z then fl
  else if (b <? r)%Z then (fl + 1)%Z
  else if Z.even fl then fl else (fl + 1)%Z.

Definition format_2f (q : Q) : str :=
  let n := round_half_even (q * 100) in
  let m := Z.abs n in
  let frac := Z.to_nat (m mod 100) in
  (if (n <? 0)%Z then py "-" else [])
    ++ str_of_nat (Z.to_nat (m / 100)) ++ py "."
    ++ (if (frac <? 10)%nat then py "0" else []) ++ str_of_nat frac.

(** [sep.join(parts)] *)
Fixpoint join (sep : str) (parts : list str) : str :=
  match parts with
  | [] => []
  | [p] => p
  | p :: rest => p ++ sep ++ join sep rest
  end.

(** ** Exceptions, the shared globals and the handler monad *)

Inductive exn :=
| TypeError
| IndexError
| ValueError
| KeyError
| RecursionError
| ServiceError (what : str).

Inductive outcome (A : Type) :=
| Ok (a : A)
| Raise (e : exn).
Arguments Ok {A} a.
Arguments Raise {A} e.

(** One entry of [chat_history]: [{"user": ..., "bot": ...}]. *)
Record turn := { user : str; bot : str }.

(** The module globals [current_lang] and [chat_history].  [classifier_calls]
    is a ghost log of the texts handed to the classification model, newest
    first; the code does not read it. *)
Record world := {
  current_lang : str;
  chat_history : list turn;
  classifier_calls : list str
}.

Definition M (A : Type) : Type := world -> outcome A * world.

#[global] Instance M_ret : MRet M := fun A a w => (Ok a, w).

#[global] Instance M_bind : MBind M := fun A B f m w =>
  match m w with
  | (Ok a, w') => f a w'
  | (Raise e, w') => (Raise e, w')
  end.

Definition raise {A} (e : exn) : M A := fun w => (Raise e, w).

Definition lift {A} (o : outcome A) : M A := fun w => (o, w).

Definition get_lang : M str := fun w => (Ok (current_lang w), w).

(** The world after the assignment [current_lang = l]. *)
Definition with_lang (l : str) (w : world) : world :=
  {| current_lang := l;
     chat_history := chat_history w;
     classifier_calls := classifier_calls w |}.

Definition set_lang (l : str) : M unit := fun w => (Ok tt, with_lang l w).

Definition get_history : M (list turn) := fun w => (Ok (chat_history w), w).

(** [chat_history.append(t)] *)
Definition append_history (t : turn) : M unit := fun w =>
  (Ok tt, {| current_lang := current_lang w;
             chat_history := chat_history w ++ [t];
             classifier_calls := classifier_calls w |}).

Definition log_classifier (text : str) : M unit := fun w =>
  (Ok tt, {| current_lang := current_lang w;
             chat_history := chat_history w;
             classifier_calls := text :: classifier_calls w |}).

(** ** Reference data and external collaborators *)

(** A cell of a table read by pandas: a string, or a number (a missing cell
    is the float NaN) carried with the text [str()] shows for it. *)
Inductive cell :=
| CStr (s : str)
| CNum (shown : str).

Definition cell_text (c : cell) : str :=
  match c with
  | CStr s => s
  | CNum shown => shown
  end.

Record deployment := {
  (** the Unicode case table behind [str.lower] *)
  unicode_lower : str -> N -> str -> str;
  (** [GoogleTranslator(source="auto", target="en").translate] *)
  translate : str -> outcome str;
  (** tokenizer, classification model and softmax: the row of class
      probabilities for an English text *)
  softmax_probs : str -> outcome (list Q);
  (** [langdetect.detect] *)
  detect : str -> outcome str;
  (** [le.classes_], the label encoder's disease names by class index *)
  le_classes : list str;
  (** [disease_desc] and [disease_prec], built from the two CSV files *)
  disease_desc : gmap str cell;
  disease_prec : gmap str (list cell)
}.

Definition disease_translations : gmap str (gmap str str) :=
  {[ py "Common Cold" := {[ py "ar" := py "نزلة برد"; py "fr" := py "Rhume commun" ]};
     py "Diabetes" := {[ py "ar" := py "داء السكري"; py "fr" := py "Diabète" ]};
     py "Migraine" := {[ py "ar" := py "صداع نصفي"; py "fr" := py "Migraine" ]};
     py "Malaria" := {[ py "ar" := py "الملاريا"; py "fr" := py "Paludisme" ]};
     py "Tuberculosis" := {[ py "ar" := py "السل"; py "fr" := py "Tuberculose" ]} ]}.

(** [greetings], in the order [greetings.items()] yields its entries. *)
Definition greetings : list (str * list str) :=
  [ (py "ar", [py "اهلا"; py "مرحبا"; py "هلا"; py "السلام عليكم"]);
    (py "en", [py "hello"; py "hi"; py "hey"]);
    (py "fr", [py "bonjour"; py "salut"]) ].

Definition greeting_responses : gmap str str :=
  {[ py "ar" := py "أهلا بيك 👋، قوللي أعراضك؟";
     py "en" := py "Hello 👋, tell me your symptoms?";
     py "fr" := py "Bonjour 👋, dites-moi vos symptômes?" ]}.

(** The trigger phrases of the three language switches, in the order the
    code tests them, with the language code each one stores and the
    acknowledgment it returns. *)
Definition switch_ar : list str := [py "كلمني عربي"; py "speak arabic"].
Definition switch_en : list str := [py "speak english"; py "كلمني انجليزي"].
Definition switch_fr : list str := [py "speak french"; py "كلمني فرنسي"].

Definition ack_ar : str := py "تمام ✅ هكلمك بالعربي!".
Definition ack_en : str := py "Okay ✅ I'll speak English now!".
Definition ack_fr : str := py "تمام ✅ هكلمك بالفرنساوي من دلوقتي!".

(** ** Ranking: [probs.argsort()[-top_n:][::-1]] *)

Definition prob_at (probs : list Q) (i : nat) : Q := nth i probs 0%Q.

Fixpoint insert_by (probs : list Q) (i : nat) (l : list nat) : list nat :=
  match l with
  | [] => [i]
  | j :: l' =>
      if Qle_bool (prob_at probs i) (prob_at probs j) then i :: l
      else j :: insert_by probs i l'
  end.

(** [probs.argsort()]: the class indices by ascending probability.  The
    order numpy gives to equal probabilities is not specified; here the
    smaller index comes first. *)
Definition argsort (probs : list Q) : list nat :=
  fold_right (insert_by probs) [] (seq 0 (length probs)).

(** [l[start:]] with Python's reading of a negative or too large [start]. *)
Definition slice_from {A} (start : Z) (l : list A) : list A :=
  let len := Z.of_nat (length l) in
  let first := if (start <? 0)%Z then Z.max (len + start) 0 else Z.min start len in
  drop (Z.to_nat first) l.

Definition top_indices (probs : list Q) (top_n : Z) : list nat :=
  rev (slice_from (- top_n) (argsort probs)).

(** Class [i] is given no more probability than class [j]. *)
Definition ranks_below (probs : list Q) (i j : nat) : Prop :=
  (prob_at probs i <= prob_at probs j)%Q.

(** [le.inverse_transform(idx)]: scikit-learn raises [ValueError] on a label
    outside the encoder's classes. *)
Definition inverse_transform (classes : list str) (idx : list nat) : outcome (list str) :=
  if forallb (fun i => (i <? length classes)%nat) idx
  then Ok (map (fun i => nth i classes []) idx)
  else Raise ValueError.

(** One element of the list [predict_top] returns:
    (disease, translated name, confidence). *)
Record prediction := {
  disease_en : str;
  disease_translated : str;
  pred_confidence : Q
}.

Fixpoint zip3 (ds ts : list str) (cs : list Q) : list prediction :=
  match ds, ts, cs with
  | d :: ds', t :: ts', c :: cs' =>
      {| disease_en := d; disease_translated := t; pred_confidence := c |}
        :: zip3 ds' ts' cs'
  | _, _, _ => []
  end.

(** A list of predictions is in order of non-increasing confidence. *)
Definition by_falling_confidence (top : list prediction) : Prop :=
  StronglySorted (fun a b => (pred_confidence b <= pred_confidence a)%Q) top.

(** [disease_translations.get(d, {}).get(lang, d)] *)
Definition translated_name (lang d : str) : str :=
  default d (default ∅ (disease_translations !! d) !! lang).

(** ** The chatbot of [api.py] and [main.py] *)

(** The dictionary the prediction branch of [chatbot] returns. *)
Record chat_dict := {
  response : str;
  disease : str;
  description : cell;
  precautions : list cell;
  confidence : Q
}.

(** What [chatbot] returns: a plain string from the language-switch and
    greeting branches, a dictionary from the prediction branch. *)
Inductive reply :=
| Text (s : str)
| Dict (d : chat_dict).

(** One element of [top10_list]. *)
Record top_entry := {
  te_disease_en : str;
  te_disease_translated : str;
  te_confidence : Q
}.

(** The object [chat_endpoint] returns. *)
Record chat_payload := {
  chat : reply;
  history : list turn;
  top10 : list top_entry
}.

(** The loop [for lang, words in greetings.items()]: the language of the
    first entry one of whose tokens occurs in [text]. *)
Fixpoint first_greeting (text : str) (items : list (str * list str)) : option str :=
  match items with
  | [] => None
  | (lang, words) :: rest =>
      if any_in text words then Some lang else first_greeting text rest
  end.

(** [chat_resp["response"]]: subscripting a string with a string key is a
    [TypeError]. *)
Definition subscript_response (r : reply) : outcome str :=
  match r with
  | Text _ => Raise TypeError
  | Dict d => Ok (response d)
  end.

(** [isinstance(p, str) and p.strip() != ""] *)
Definition keeps_precaution (p : cell) : bool :=
  match p with
  | CStr s => negb (str_eqb (strip s) [])
  | CNum _ => false
  end.

(** [f"{i+1}. {p}"] for the entries of [enumerate(ps)] from index [i] on. *)
Fixpoint numbered (i : nat) (ps : list cell) : list str :=
  match ps with
  | [] => []
  | p :: rest => (str_of_nat (i + 1) ++ py ". " ++ cell_text p) :: numbered (S i) rest
  end.

Definition top_entry_of (p : prediction) : top_entry :=
  {| te_disease_en := disease_en p;
     te_disease_translated := disease_translated p;
     te_confidence := pred_confidence p |}.

Section Chatbot.

Context (E : deployment).

(** The classification model is run on the translated text. *)
Definition classify (text_en : str) : M (list Q) :=
  log_classifier text_en;;
  lift (softmax_probs E text_en).

Definition predict_top (symptoms_text : str) (lang : option str) (top_n : Z)
  : M (list prediction) :=
  text_en ← lift (translate E symptoms_text);
  probs ← classify text_en;
  let top_idx := top_indices probs top_n in
  diseases ← lift (inverse_transform (le_classes E) top_idx);
  let confidences := map (prob_at probs) top_idx in
  lang ← match lang with
         | None => lift (detect E symptoms_text)
         | Some l => mret l
         end;
  let translated := map (translated_name lang) diseases in
  mret (zip3 diseases translated confidences).

Definition predict_disease (symptoms_text : str) (lang : option str) : M prediction :=
  top ← predict_top symptoms_text lang 10;
  match top with
  | [] => raise IndexError
  | best :: _ => mret best
  end.

(** [disease_desc.get(d, "No description available.")] *)
Definition lookup_description (d : str) : cell :=
  default (CStr (py "No description available.")) (disease_desc E !! d).

(** [[p for p in disease_prec.get(d, []) if isinstance(p, str) and p.strip() != ""]] *)
Definition lookup_precautions (d : str) : list cell :=
  List.filter keeps_precaution (default [] (disease_prec E !! d)).

Definition response_text (disease_out : str) (prob : Q) (descr : cell)
    (precs : list cell) : str :=
  py "📋 Expected Disease: " ++ disease_out ++ py " (Confidence: "
    ++ format_2f prob ++ py ")" ++ nl ++ nl
    ++ py "📝 Description: " ++ cell_text descr ++ nl ++ nl
    ++ match precs with
       | [] => []
       | _ :: _ => py "✅ Precautions:" ++ nl ++ join nl (numbered 0 precs)
       end.

(** [greeting_responses.get(current_lang, greeting_responses["en"])] *)
Definition greeting_reply (lang : str) : outcome str :=
  match greeting_responses !! py "en" with
  | None => Raise KeyError
  | Some fallback => Ok (default fallback (greeting_responses !! lang))
  end.

(** The three tests of the language switch:
    [any(word in user_input.lower() for word in [...])]. *)
Definition asks_ar (user_input : str) : bool :=
  any_in (lower (unicode_lower E) user_input) switch_ar.
Definition asks_en (user_input : str) : bool :=
  any_in (lower (unicode_lower E) user_input) switch_en.
Definition asks_fr (user_input : str) : bool :=
  any_in (lower (unicode_lower E) user_input) switch_fr.

Definition chatbot (user_input : str) : M reply :=
  if asks_ar user_input then
    set_lang (py "ar");; mret (Text ack_ar)
  else if asks_en user_input then
    set_lang (py "en");; mret (Text ack_en)
  else if asks_fr user_input then
    set_lang (py "fr");; mret (Text ack_fr)
  else
    match first_greeting (lower (unicode_lower E) user_input) greetings with
    | Some _ =>
        lang ← get_lang;
        greeting ← lift (greeting_reply lang);
        mret (Text greeting)
    | None =>
        lang ← get_lang;
        best ← predict_disease user_input (Some lang);
        let descr := lookup_description (disease_en best) in
        let precs := lookup_precautions (disease_en best) in
        mret (Dict {| response := response_text (disease_translated best)
                                    (pred_confidence best) descr precs;
                      disease := disease_translated best;
                      description := descr;
                      precautions := precs;
                      confidence := pred_confidence best |})
    end.

(** [POST /chat] *)
Definition chat_endpoint (message : str) : M chat_payload :=
  chat_resp ← chatbot message;
  said ← lift (subscript_response chat_resp);
  append_history {| user := message; bot := said |};;
  lang ← get_lang;
  top ← predict_top message (Some lang) 10;
  hist ← get_history;
  mret {| chat := chat_resp; history := hist; top10 := map top_entry_of top |}.

End Chatbot.

(** ** The language switches as a family *)

(** The three switches in the order [chatbot] tests them. *)
Inductive switch :=
| ToArabic
| ToEnglish
| ToFrench.

Definition triggers (k : switch) : list str :=
  match k with
  | ToArabic => switch_ar
  | ToEnglish => switch_en
  | ToFrench => switch_fr
  end.

Definition switch_code (k : switch) : str :=
  match k with
  | ToArabic => py "ar"
  | ToEnglish => py "en"
  | ToFrench => py "fr"
  end.

Definition switch_ack (k : switch) : str :=
  match k with
  | ToArabic => ack_ar
  | ToEnglish => ack_en
  | ToFrench => ack_fr
  end.

(** The switches whose test comes before the one of [k]. *)
Definition tested_before (k : switch) : list switch :=
  match k with
  | ToArabic => []
  | ToEnglish => [ToArabic]
  | ToFrench => [ToArabic; ToEnglish]
  end.

(** [asks E input k]: the lower-cased input contains a trigger phrase of
    the switch [k]. *)
Definition asks (E : deployment) (input : str) (k : switch) : bool :=
  any_in (lower (unicode_lower E) input) (triggers k).

(** The script of a text, as far as the three languages need it: letters of
    the Arabic block U+0600..U+06FF against letters of the Latin alphabet
    (ASCII and the accented letters U+00C0..U+024F).  English and French are
    written in Latin letters, Arabic in Arabic ones. *)
Definition is_arabic_letter (c : N) : bool := ((1536 <=? c) && (c <=? 1791))%N.

Definition is_latin_letter (c : N) : bool :=
  ((65 <=? c) && (c <=? 90) || (97 <=? c) && (c <=? 122)
   || (192 <=? c) && (c <=? 591))%N.

(** A code point [str.lower] leaves as it is under the table [tbl], wherever
    it stands: an Arabic letter has no case in the Unicode database. *)
Definition uncased (tbl : str -> N -> str -> str) (c : N) : Prop :=
  forall before after, tbl before c after = [c].

Definition arabic_text (s : str) : bool :=
  existsb is_arabic_letter s && negb (existsb is_latin_letter s).

Definition latin_text (s : str) : bool :=
  existsb is_latin_letter s && negb (existsb is_arabic_letter s).

(** [written_for lang s]: the text [s] is in the script of the language
    with code [lang]. *)
Definition written_for (lang : str) (s : str) : bool :=
  if str_eqb lang (py "ar") then arabic_text s else latin_text s.

(** The language codes the program knows. *)
Definition known_lang (lang : str) : Prop :=
  lang = py "ar" \/ lang = py "en" \/ lang = py "fr".

(** ** A small deployment to run the handlers on *)

Definition demo_probs : list Q := [ (1 # 10); (6 # 10); (3 # 10) ]%Q.

Definition demo : deployment := {|
  unicode_lower := fun _ c _ => [c];
  translate := fun s => Ok s;
  softmax_probs := fun _ => Ok demo_probs;
  detect := fun _ => Ok (py "en");
  le_classes := [py "Common Cold"; py "Malaria"; py "Scurvy"];
  disease_desc := {[ py "Common Cold" := CStr (py "A viral infection of the nose and throat.") ]};
  disease_prec := {[ py "Malaria" := [CStr (py "Consult nearest hospital"); CNum (py "nan");
                                       CStr (py "  "); CStr (py "avoid oily food")] ]}
|}.

Definition world0 : world :=
  {| current_lang := py "en"; chat_history := []; classifier_calls := [] |}.

(** ** The doctor lookup client of [doctors_api.py] *)

Module DoctorsApi.

(** A parsed JSON document, which is also the shape of the payloads
    [get_doctors] returns.  An object keeps its members in order; a parsed
    object has no key twice. *)
#[warnings="-register-all"]
Inductive json :=
| JNull
| JBool (b : bool)
| JNum (q : Q)
| JStr (s : str)
| JArr (items : list json)
| JObj (members : list (str * json)).

(** [members.get(key)] as an option. *)
Fixpoint obj_get (members : list (str * json)) (key : str) : option json :=
  match members with
  | [] => None
  | (k, v) :: rest => if str_eqb k key then Some v else obj_get rest key
  end.

(** [doc.get(key)]: [None] when the key is missing. *)
Definition field (members : list (str * json)) (key : str) : json :=
  default JNull (obj_get members key).

(** [key in payload] for a payload that is an object. *)
Definition has_key (payload : json) (key : str) : bool :=
  match payload with
  | JObj members => bool_decide (is_Some (obj_get members key))
  | _ => false
  end.

(** The response of the directory to the GET request: its status code, the
    text of the [HTTPError] that [raise_for_status] builds for it, and what
    [response.json()] does with its body: it returns the parsed document, or
    it raises ([ValueError] on a body that is not JSON, [RecursionError] on
    one nested too deeply). *)
Record http_response := {
  status_code : Z;
  error_text : str;
  json_body : outcome json
}.

(** What [requests.get] does: it raises a [RequestException] (connection
    error, timeout, ...) whose text is [message], or it returns. *)
Inductive http_outcome :=
| RequestFailed (message : str)
| Responded (r : http_response).

(** [response.raise_for_status()] raises for the statuses 400 to 599. *)
Definition raises_for_status (r : http_response) : bool :=
  (400 <=? status_code r)%Z && (status_code r <? 600)%Z.

(** The query parameters: an argument that is [None] or empty is left out. *)
Definition request_params (disease symptom : option str) : list (str * str) :=
  match disease with
  | Some ((_ :: _) as d) => [(py "disease", d)]
  | _ => []
  end ++
  match symptom with
  | Some ((_ :: _) as s) => [(py "symptom", s)]
  | _ => []
  end.

(** The value the doctors are read from: the member ["doctors"] of a
    mapping, or the document itself when it is a list. *)
Definition select_doctors (data : json) : option json :=
  match data with
  | JObj members => obj_get members (py "doctors")
  | JArr _ => Some data
  | _ => None
  end.

(** Python's truth value of a parsed document. *)
Definition truthy (v : json) : bool :=
  match v with
  | JNull => false
  | JBool b => b
  | JNum q => negb (Qeq_bool q 0)
  | JStr s => negb (Nat.eqb (length s) 0)
  | JArr items => negb (Nat.eqb (length items) 0)
  | JObj members => negb (Nat.eqb (length members) 0)
  end.

(** [for doc in data]: a list yields its items, a mapping its keys, a string
    its characters; anything else is not iterable. *)
Definition iterate (v : json) : outcome (list json) :=
  match v with
  | JArr items => Ok items
  | JObj members => Ok (map (fun kv => JStr (fst kv)) members)
  | JStr s => Ok (map (fun c => JStr [c]) s)
  | _ => Raise TypeError
  end.

(** One entry of [doctors_list]. *)
Definition reshape (doc : json) : json :=
  match doc with
  | JObj m =>
      JObj [ (py "name", field m (py "name"));
             (py "specialization", field m (py "specialization"));
             (py "hospital", field m (py "hospital"));
             (py "address", field m (py "address"));
             (py "contact", field m (py "phone"));
             (py "rating", field m (py "rating")) ]
  | _ => JObj [ (py "raw_entry", doc) ]
  end.

Definition error_payload (text : str) : json :=
  JObj [ (py "error", JStr text) ].

Definition no_doctors_payload : json :=
  JObj [ (py "message", JStr (py "No doctors found for the given disease or symptom.")) ].

Definition doctors_payload (docs : list json) : json :=
  JObj [ (py "count", JNum (inject_Z (Z.of_nat (length docs))));
         (py "doctors", JArr (map reshape docs)) ].

(** The part of [get_doctors] after the body has been parsed. *)
Definition shape (data : json) : outcome json :=
  match select_doctors data with
  | None =>
      Ok (JObj [ (py "message", JStr (py "Unexpected API response structure."));
                 (py "raw", data) ])
  | Some found =>
      if negb (truthy found) then Ok no_doctors_payload
      else match iterate found with
           | Ok docs => Ok (doctors_payload docs)
           | Raise e => Raise e
           end
  end.

(** [get_doctors(disease, symptom)] against a directory that answers the
    request with [directory params].  The inner [except ValueError] catches
    a body that is not JSON; the outer [except RequestException] catches the
    failures of the request; any other exception raised in between leaves
    the function. *)
Definition get_doctors (directory : list (str * str) -> http_outcome)
    (disease symptom : option str) : outcome json :=
  match directory (request_params disease symptom) with
  | RequestFailed message =>
      Ok (error_payload (py "Failed to fetch doctors: " ++ message))
  | Responded r =>
      if raises_for_status r
      then Ok (error_payload (py "Failed to fetch doctors: " ++ error_text r))
      else match json_body r with
           | Ok data => shape data
           | Raise ValueError =>
               Ok (error_payload (py "Invalid response format from Doctors API."))
           | Raise e => Raise e
           end
  end.

(** Two directories to run the client on. *)
Definition two_doctors : json :=
  JObj [ (py "doctors",
          JArr [ JObj [ (py "name", JStr (py "Dr. Amal")); (py "phone", JStr (py "555-0101")) ];
                 JObj [ (py "name", JStr (py "Dr. Brun")); (py "rating", JNum (9 # 2)) ] ]) ].

Definition answers (status : Z) (body : outcome json) : list (str * str) -> http_outcome :=
  fun _ => Responded {| status_code := status;
                        error_text := py "HTTP error";
                        json_body := body |}.

(** A directory that knows the doctors of one request only: it answers
    [body] to the query [expected] and 404 to any other. *)
Definition only_for (expected : list (str * str)) (body : outcome json)
  : list (str * str) -> http_outcome :=
  fun params =>
    if decide (params = expected)
    then answers 200 body params
    else answers 404 (Raise ValueError) params.

(** A directory that answers 201 Created with a list of one doctor. *)
Definition created_201 : http_response :=
  {| status_code := 201;
     error_text := [];
     json_body := Ok (JArr [ JObj [ (py "name", JStr (py "Dr. Amal")) ] ]) |}.

End DoctorsApi.

(** ** The rest of [api.py]: doctor and image endpoints *)

(** [GET /find_doctors]: the handler hands its two query parameters to
    [get_doctors] and returns what it returns. *)
Definition find_doctors (directory : list (str * str) -> DoctorsApi.http_outcome)
    (disease symptom : option str) : outcome DoctorsApi.json :=
  DoctorsApi.get_doctors directory disease symptom.


(** The keys of a payload, in order. *)
Definition member_names (payload : DoctorsApi.json) : list str :=
  match payload with
  | DoctorsApi.JObj members => map fst members
  | _ => []
  end.

(** [tensor.argmax(-1).item()] on one row of scores: the index of the first
    maximal score. *)
Fixpoint argmax_from (best : nat) (best_score : Q) (i : nat) (scores : list Q) : nat :=
  match scores with
  | [] => best
  | x :: rest =>
      if Qle_bool x best_score then argmax_from best best_score (S i) rest
      else argmax_from i x (S i) rest
  end.

Definition argmax (scores : list Q) : option nat :=
  match scores with
  | [] => None
  | x :: rest => Some (argmax_from 0 x 1 rest)
  end.

(** What the image path of [api.py] gets from outside: PIL opening the
    uploaded bytes, the image processor and classification model giving the
    row of logits, the model's [config.id2label], and the Groq chat
    completion returning [choices[0].message.content] for a prompt. *)
Record vision (image : Type) := {
  open_image : list N -> outcome image;
  image_logits : image -> outcome (list Q);
  id2label : gmap nat str;
  groq_complete : str -> outcome str
}.
Arguments open_image {image} v.
Arguments image_logits {image} v.
Arguments id2label {image} v.
Arguments groq_complete {image} v.

(** The object [POST /image] returns. *)
Record image_payload := {
  detected_disease : str;
  details : str
}.

(** The prompt of [get_disease_info_groq]. *)
Definition groq_prompt (disease_name : str) : str :=
  py "Provide a detailed explanation about the skin disease '" ++ disease_name
    ++ py "', including description, causes, precautions, risks, and treatment options.".

Section ImagePath.

Context {image : Type} (V : vision image).

Definition predict_skin_disease (img : image) : outcome str :=
  match image_logits V img with
  | Raise e => Raise e
  | Ok logits =>
      match argmax logits with
      | None => Raise (ServiceError (py "argmax of an empty tensor"))
      | Some predicted_class_idx =>
          match id2label V !! predicted_class_idx with
          | None => Raise KeyError
          | Some predicted_label => Ok predicted_label
          end
      end
  end.

Definition get_disease_info_groq (disease_name : str) : outcome str :=
  groq_complete V (groq_prompt disease_name).

(** [POST /image] *)
Definition detect_disease (contents : list N) : outcome image_payload :=
  match open_image V contents with
  | Raise e => Raise e
  | Ok img =>
      match predict_skin_disease img with
      | Raise e => Raise e
      | Ok disease_name =>
          match get_disease_info_groq disease_name with
          | Raise e => Raise e
          | Ok disease_info =>
              Ok {| detected_disease := disease_name; details := disease_info |}
          end
      end
  end.

End ImagePath.

(** ** [main.py] *)

(** [main.py] repeats [predict_top] and [predict_disease] of [api.py] word
    for word; its [chatbot] names the phrases of the English and of the
    French switch in the other order, and its [chat_endpoint] is the one of
    [api.py]. *)
Module MainPy.

Definition switch_ar : list str := [py "كلمني عربي"; py "speak arabic"].
Definition switch_en : list str := [py "كلمني انجليزي"; py "speak english"].
Definition switch_fr : list str := [py "كلمني فرنسي"; py "speak french"].

Section Handlers.

Context (E : deployment).

Definition chatbot (user_input : str) : M reply :=
  if any_in (lower (unicode_lower E) user_input) switch_ar then
    set_lang (py "ar");; mret (Text (py "تمام ✅ هكلمك بالعربي!"))
  else if any_in (lower (unicode_lower E) user_input) switch_en then
    set_lang (py "en");; mret (Text (py "Okay ✅ I'll speak English now!"))
  else if any_in (lower (unicode_lower E) user_input) switch_fr then
    set_lang (py "fr");; mret (Text (py "تمام ✅ هكلمك بالفرنساوي من دلوقتي!"))
  else
    match first_greeting (lower (unicode_lower E) user_input) greetings with
    | Some _ =>
        lang ← get_lang;
        greeting ← lift (greeting_reply lang);
        mret (Text greeting)
    | None =>
        lang ← get_lang;
        best ← predict_disease E user_input (Some lang);
        let descr := lookup_description E (disease_en best) in
        let precs := lookup_precautions E (disease_en best) in
        mret (Dict {| response := response_text (disease_translated best)
                                    (pred_confidence best) descr precs;
                      disease := disease_translated best;
                      description := descr;
                      precautions := precs;
                      confidence := pred_confidence best |})
    end.

Definition chat_endpoint (message : str) : M chat_payload :=
  chat_resp ← chatbot message;
  said ← lift (subscript_response chat_resp);
  append_history {| user := message; bot := said |};;
  lang ← get_lang;
  top ← predict_top E message (Some lang) 10;
  hist ← get_history;
  mret {| chat := chat_resp; history := hist; top10 := map top_entry_of top |}.

End Handlers.

End MainPy.

(** ** [app.py]: the Streamlit front end *)

(** [app.py] has the same tables, [predict_top] and [predict_disease]; its
    [chatbot] returns a string on every branch, and the script below it keeps
    the conversation in [st.session_state.history] as (sender, message)
    pairs. *)
Module AppPy.

(** [f"   {i}. {p}\n"] for the entries of [enumerate(ps, i)]. *)
Fixpoint precaution_lines (i : nat) (ps : list cell) : str :=
  match ps with
  | [] => []
  | p :: rest =>
      py "   " ++ str_of_nat i ++ py ". " ++ cell_text p ++ nl
        ++ precaution_lines (S i) rest
  end.

Definition response_text (disease_out : str) (prob : Q) (descr : cell)
    (precs : list cell) : str :=
  py "📋 Expected Disease: **" ++ disease_out ++ py "** (Confidence: "
    ++ format_2f prob ++ py ")" ++ nl ++ nl
    ++ py "📝 Description: " ++ cell_text descr ++ nl ++ nl
    ++ match precs with
       | [] => []
       | _ :: _ => py "✅ Precautions:" ++ nl ++ precaution_lines 1 precs
       end.

(** [[msg for sender, msg in history if sender == "You"]] *)
Definition user_messages (hist : list (str * str)) : list str :=
  map snd (List.filter (fun entry => str_eqb (fst entry) (py "You")) hist).

Section Script.

Context (E : deployment).

Definition chatbot (user_input : str) : M str :=
  if any_in (lower (unicode_lower E) user_input) MainPy.switch_ar then
    set_lang (py "ar");; mret (py "تمام ✅ هكلمك بالعربي!")
  else if any_in (lower (unicode_lower E) user_input) MainPy.switch_en then
    set_lang (py "en");; mret (py "Okay ✅ I'll speak English now!")
  else if any_in (lower (unicode_lower E) user_input) MainPy.switch_fr then
    set_lang (py "fr");; mret (py "تمام ✅ هكلمك بالفرنساوي من دلوقتي!")
  else
    match first_greeting (lower (unicode_lower E) user_input) greetings with
    | Some _ =>
        lang ← get_lang;
        lift (greeting_reply lang)
    | None =>
        lang ← get_lang;
        best ← predict_disease E user_input (Some lang);
        mret (response_text (disease_translated best) (pred_confidence best)
                (lookup_description E (disease_en best))
                (lookup_precautions E (disease_en best)))
    end.

(** One run of the script below the definitions, from the session's
    history, the state of the Send button and the text of the input box.  A
    run that reaches the end gives the history it shows and the top-ten list
    it charts, if it charts one; a run that raises stops where it raised. *)
Definition run (session : option (list (str * str))) (send : bool)
    (user_input : str) : M (list (str * str) * option (list prediction)) :=
  let hist := default [] session in
  hist ← (if send && negb (Nat.eqb (length user_input) 0) then
            response ← chatbot user_input;
            mret (hist ++ [(py "You", user_input); (py "Bot", response)])
          else mret hist);
  chart ← (if negb (Nat.eqb (length hist) 0) then
             match rev (user_messages hist) with
             | [] => mret None
             | last_input :: _ =>
                 lang ← get_lang;
                 top10 ← predict_top E last_input (Some lang) 10;
                 mret (Some top10)
             end
           else mret None);
  mret (hist, chart).

End Script.

End AppPy.

(** ** Requests one after another *)

(** The world after [POST /chat] has been served for each message in turn;
    a request that ends in an error leaves the world as it was when the
    error was raised. *)
Fixpoint after_requests (E : deployment) (messages : list str) (w : world) : world :=
  match messages with
  | [] => w
  | message :: rest => after_requests E rest (snd (chat_endpoint E message w))
  end.

(** A deployment with another language detector. *)
Definition with_detect (E : deployment) (d : str -> outcome str) : deployment :=
  {| unicode_lower := unicode_lower E;
     translate := translate E;
     softmax_probs := softmax_probs E;
     detect := d;
     le_classes := le_classes E;
     disease_desc := disease_desc E;
     disease_prec := disease_prec E |}.

(** A deployment whose translation service and model have come to answer
    otherwise; the tables loaded at start-up stay. *)
Definition with_services (E : deployment) (translate' : str -> outcome str)
    (softmax_probs' : str -> outcome (list Q)) : deployment :=
  {| unicode_lower := unicode_lower E;
     translate := translate';
     softmax_probs := softmax_probs';
     detect := detect E;
     le_classes := le_classes E;
     disease_desc := disease_desc E;
     disease_prec := disease_prec E |}.

(** [POST /chat] calls the translation service and the model twice for one
    message: inside [chatbot], and again in the handler's own [predict_top].
    Here the second call is answered by [translate'] and [softmax_probs'],
    which need not be what answered the first. *)
Definition chat_endpoint_later (E : deployment) (translate' : str -> outcome str)
    (softmax_probs' : str -> outcome (list Q)) (message : str) : M chat_payload :=
  chat_resp ← chatbot E message;
  said ← lift (subscript_response chat_resp);
  append_history {| user := message; bot := said |};;
  lang ← get_lang;
  top ← predict_top (with_services E translate' softmax_probs') message (Some lang) 10;
  hist ← get_history;
  mret {| chat := chat_resp; history := hist; top10 := map top_entry_of top |}.


(** The five diseases [disease_translations] has names for. *)
Definition translated_diseases : list str :=
  [py "Common Cold"; py "Diabetes"; py "Migraine"; py "Malaria"; py "Tuberculosis"].

(** A small image deployment: images are their bytes, the model scores
    three classes. *)
Definition demo_vision : vision (list N) := {|
  open_image := fun contents =>
    match contents with
    | [] => Raise (ServiceError (py "cannot identify image file"))
    | _ :: _ => Ok contents
    end;
  image_logits := fun _ => Ok [ (-1 # 2); (5 # 2); (5 # 2) ]%Q;
  id2label := {[ 0%nat := py "Acne"; 1%nat := py "Eczema"; 2%nat := py "Psoriasis" ]};
  groq_complete := fun prompt => Ok (py "About: " ++ prompt)
|}.

(** * Properties *)

(** ** Strings *)

Lemma str_eqb_eq (a b : str) : str_eqb a b = true <-> a = b.
Proof.
  revert b. induction a as [|x a IH]; intros [|y b]; simpl; split;
    try congruence; try reflexivity.
  - intros H. apply andb_prop in H as [Hxy Hab].
    apply N.eqb_eq in Hxy. apply IH in Hab. congruence.
  - intros H. injection H as -> ->. rewrite N.eqb_refl. simpl. now apply IH.
Qed.

Lemma startswith_spec (s w : str) :
  startswith s w = true <-> exists post, s = w ++ post.
Proof.
  revert s. induction w as [|x w IH]; intros s; simpl.
  - split; [intros _; now exists s | reflexivity].
  - destruct s as [|y s].
    + split; [discriminate | intros [post H]; discriminate].
    + rewrite andb_true_iff, N.eqb_eq, IH. split.
      * intros [-> [post ->]]. now exists post.
      * intros [post H]. injection H as -> ->. split; [reflexivity | now exists post].
Qed.

(** [w in s] holds exactly when [s] is some text, then [w], then some text. *)
Lemma contains_spec (s w : str) :
  contains s w = true <-> exists pre post, s = pre ++ w ++ post.
Proof.
  split.
  - induction s as [|c s IH]; simpl; rewrite orb_true_iff.
    + intros [H | H]; [| discriminate].
      apply startswith_spec in H as [post H]. now exists [], post.
    + intros [H | H].
      * apply startswith_spec in H as [post H]. now exists [], post.
      * destruct (IH H) as (pre & post & ->). now exists (c :: pre), post.
  - intros (pre & post & ->). induction pre as [|c pre IH]; simpl.
    + destruct (w ++ post) eqn:Hw; simpl; apply orb_true_iff; left;
        apply startswith_spec; exists post; now rewrite Hw.
    + apply orb_true_iff. now right.
Qed.

Lemma any_in_spec (s : str) (words : list str) :
  any_in s words = true <-> exists w, In w words /\ contains s w = true.
Proof. unfold any_in. apply existsb_exists. Qed.

Lemma any_in_false (s : str) (words : list str) :
  any_in s words = false <-> forall w, In w words -> contains s w = false.
Proof.
  unfold any_in. induction words as [|w words IH]; simpl.
  - split; [intros _ w [] | reflexivity].
  - rewrite orb_false_iff, IH. split.
    + intros [Hw Hrest] v [<- | Hv]; [exact Hw | now apply Hrest].
    + intros H. split; [apply H; now left | intros v Hv; apply H; now right].
Qed.

(** [lower] works through a text from left to right: what a prefix becomes
    stands before what the rest becomes. *)
Lemma lower_from_skip tbl (pre before rest : str) :
  exists out, lower_from tbl before (pre ++ rest)
               = out ++ lower_from tbl (before ++ pre) rest.
Proof.
  revert before. induction pre as [|c pre IH]; intros before; simpl.
  - exists []. now rewrite app_nil_r.
  - destruct (IH (before ++ [c])) as [out ->]. rewrite <- app_assoc. simpl.
    eexists. now rewrite app_assoc.
Qed.

(** On ASCII text [lower] is the ASCII lower-casing of each character,
    whatever the Unicode table says about the other code points. *)
Lemma lower_from_ascii tbl (v before rest : str) :
  forallb (fun c => (c <? 128)%N) v = true ->
  lower_from tbl before (v ++ rest)
  = map ascii_lower v ++ lower_from tbl (before ++ v) rest.
Proof.
  revert before. induction v as [|c v IH]; intros before; simpl.
  - now rewrite app_nil_r.
  - intros H. apply andb_prop in H as [Hc Hv]. rewrite Hc. simpl.
    rewrite (IH _ Hv), <- app_assoc. reflexivity.
Qed.

(** The substring test on the lower-cased input ignores the case of ASCII
    letters: any spelling [v] of the phrase [w] that differs from it only in
    the case of ASCII letters is found, wherever it stands in the input. *)
Lemma contains_lower_any_case tbl (pre v post w : str) :
  forallb (fun c => (c <? 128)%N) v = true ->
  map ascii_lower v = w ->
  contains (lower tbl (pre ++ v ++ post)) w = true.
Proof.
  intros Hascii Hw. apply contains_spec. unfold lower.
  destruct (lower_from_skip tbl pre [] (v ++ post)) as [out ->].
  rewrite (lower_from_ascii _ _ _ _ Hascii), Hw. now eexists _, _.
Qed.

Lemma first_greeting_spec (text : str) (items : list (str * list str)) :
  (exists lang, first_greeting text items = Some lang) <->
  exists lang tokens token,
    In (lang, tokens) items /\ In token tokens /\ contains text token = true.
Proof.
  induction items as [|[lang tokens] items IH]; simpl.
  - split; [intros [l H]; discriminate | intros (l & ts & t & [] & _)].
  - destruct (any_in text tokens) eqn:Hany.
    + split; [| intros _; now exists lang].
      intros _. apply any_in_spec in Hany as (token & Hin & Hc).
      exists lang, tokens, token. auto.
    + rewrite IH. split.
      * intros (l & ts & t & Hin & Ht & Hc). exists l, ts, t. auto.
      * intros (l & ts & t & [Heq | Hin] & Ht & Hc).
        -- injection Heq as -> ->.
           rewrite (proj1 (any_in_false _ _) Hany t Ht) in Hc. discriminate.
        -- exists l, ts, t. auto.
Qed.

Lemma lstrip_nil (s : str) : lstrip s = [] <-> forallb is_space s = true.
Proof.
  induction s as [|c s IH]; simpl; [tauto |].
  destruct (is_space c); simpl; [exact IH | split; discriminate].
Qed.

Lemma lstrip_head (s : str) :
  match lstrip s with
  | [] => True
  | c :: _ => is_space c = false
  end.
Proof.
  induction s as [|c s IH]; simpl; [exact I |].
  destruct (is_space c) eqn:Hc; [exact IH | exact Hc].
Qed.

(** [s.strip()] is empty exactly when [s] is blank: every code point of it
    is white space. *)
Lemma strip_nil (s : str) : strip s = [] <-> forallb is_space s = true.
Proof.
  unfold strip. rewrite <- lstrip_nil. split.
  - intros H. apply (f_equal (@rev N)) in H. rewrite rev_involutive in H.
    simpl in H. apply lstrip_nil in H. rewrite forallb_forall in H.
    pose proof (lstrip_head s) as Hh. destruct (lstrip s) as [|c t]; [reflexivity |].
    rewrite (H c) in Hh; [discriminate |]. apply in_rev. rewrite rev_involutive. now left.
  - intros ->. reflexivity.
Qed.

(** ** The chatbot *)

Ltac run_m :=
  cbv beta iota zeta delta
    [mbind M_bind mret M_ret lift raise get_lang set_lang get_history
     append_history log_classifier classify].

Lemma greeting_en :
  greeting_responses !! py "en" = Some (py "Hello 👋, tell me your symptoms?").
Proof. vm_compute. reflexivity. Qed.

Lemma greeting_ar :
  greeting_responses !! py "ar" = Some (py "أهلا بيك 👋، قوللي أعراضك؟").
Proof. vm_compute. reflexivity. Qed.

Lemma greeting_fr :
  greeting_responses !! py "fr" = Some (py "Bonjour 👋, dites-moi vos symptômes?").
Proof. vm_compute. reflexivity. Qed.

(** The greeting lookup never fails: ["en"] is a key of [greeting_responses]. *)
Lemma greeting_reply_ok (lang : str) :
  greeting_reply lang
  = Ok (default (py "Hello 👋, tell me your symptoms?") (greeting_responses !! lang)).
Proof. unfold greeting_reply. now rewrite greeting_en. Qed.

Section ChatbotFacts.

Context (E : deployment).

Implicit Types (input : str) (w : world).

Lemma chatbot_switch_ar input w :
  asks_ar E input = true ->
  chatbot E input w = (Ok (Text ack_ar), with_lang (py "ar") w).
Proof. unfold chatbot. intros ->. reflexivity. Qed.

Lemma chatbot_switch_en input w :
  asks_ar E input = false -> asks_en E input = true ->
  chatbot E input w = (Ok (Text ack_en), with_lang (py "en") w).
Proof. unfold chatbot. intros -> ->. reflexivity. Qed.

Lemma chatbot_switch_fr input w :
  asks_ar E input = false -> asks_en E input = false -> asks_fr E input = true ->
  chatbot E input w = (Ok (Text ack_fr), with_lang (py "fr") w).
Proof. unfold chatbot. intros -> -> ->. reflexivity. Qed.

Lemma chatbot_greets input w lang :
  asks_ar E input = false -> asks_en E input = false -> asks_fr E input = false ->
  first_greeting (lower (unicode_lower E) input) greetings = Some lang ->
  chatbot E input w
  = (Ok (Text (default (py "Hello 👋, tell me your symptoms?")
                 (greeting_responses !! current_lang w))), w).
Proof.
  unfold chatbot. intros -> -> -> ->.
  run_m. now rewrite greeting_reply_ok.
Qed.

(** Ranking changes neither of the two globals; it may run the classifier. *)
Lemma predict_top_frame text lang n w :
  current_lang (snd (predict_top E text lang n w)) = current_lang w /\
  chat_history (snd (predict_top E text lang n w)) = chat_history w.
Proof.
  unfold predict_top. run_m.
  destruct (translate E text) as [text_en|]; [| now split].
  destruct (softmax_probs E text_en) as [probs|]; [| now split].
  destruct (inverse_transform _ _); [| now split].
  destruct lang as [l|]; [now split |].
  destruct (detect E text); now split.
Qed.

Lemma predict_disease_frame text lang w :
  current_lang (snd (predict_disease E text lang w)) = current_lang w /\
  chat_history (snd (predict_disease E text lang w)) = chat_history w.
Proof.
  unfold predict_disease. run_m.
  pose proof (predict_top_frame text lang 10 w) as H.
  destruct (predict_top E text lang 10 w) as [[top|] w']; [| exact H].
  destruct top; exact H.
Qed.

Lemma chatbot_predicts input w :
  asks_ar E input = false -> asks_en E input = false -> asks_fr E input = false ->
  first_greeting (lower (unicode_lower E) input) greetings = None ->
  chatbot E input w
  = match predict_disease E input (Some (current_lang w)) w with
    | (Ok best, w') =>
        (Ok (Dict {| response := response_text (disease_translated best)
                                   (pred_confidence best)
                                   (lookup_description E (disease_en best))
                                   (lookup_precautions E (disease_en best));
                     disease := disease_translated best;
                     description := lookup_description E (disease_en best);
                     precautions := lookup_precautions E (disease_en best);
                     confidence := pred_confidence best |}), w')
    | (Raise e, w') => (Raise e, w')
    end.
Proof.
  unfold chatbot. intros -> -> -> ->.
  run_m. destruct (predict_disease E input (Some (current_lang w)) w) as [[best|] w'];
    reflexivity.
Qed.

End ChatbotFacts.

Section ChatbotClaims.

Context (E : deployment).

Implicit Types (input : str) (w : world).

Lemma asks_none input :
  (forall k, asks E input k = false) ->
  asks_ar E input = false /\ asks_en E input = false /\ asks_fr E input = false.
Proof.
  intros H. repeat split;
    [apply (H ToArabic) | apply (H ToEnglish) | apply (H ToFrench)].
Qed.

Lemma no_trigger_asks_none input :
  (forall phrase, In phrase (switch_ar ++ switch_en ++ switch_fr) ->
     contains (lower (unicode_lower E) input) phrase = false) ->
  forall k, asks E input k = false.
Proof.
  intros H k. apply any_in_false. intros phrase Hin. apply H.
  rewrite !in_app_iff. destruct k; cbn [triggers] in Hin; tauto.
Qed.

(** A trigger phrase is found whatever the case of its ASCII letters. *)
Lemma asks_any_case (k : switch) (phrase pre v post : str) :
  In phrase (triggers k) ->
  forallb (fun c => (c <? 128)%N) v = true ->
  map ascii_lower v = phrase ->
  asks E (pre ++ v ++ post) k = true.
Proof.
  intros Hin Hascii Hv. apply any_in_spec. exists phrase. split; [exact Hin |].
  now apply contains_lower_any_case.
Qed.

(** A reply that is a plain string makes [chat_endpoint] raise at
    [chat_resp["response"]], before the history is touched and before the
    classifier is asked for the top ten. *)
Lemma chat_endpoint_text_reply input w s w' :
  chatbot E input w = (Ok (Text s), w') ->
  chat_endpoint E input w = (Raise TypeError, w').
Proof. unfold chat_endpoint. run_m. intros ->. reflexivity. Qed.

(** What [chat_endpoint] returns under ["chat"] is always the dictionary. *)
Lemma chat_endpoint_returns_dict input w payload w' :
  chat_endpoint E input w = (Ok payload, w') ->
  exists d, chat payload = Dict d.
Proof.
  unfold chat_endpoint. run_m.
  destruct (chatbot E input w) as [[[s|d]|e] w1]; simpl; try discriminate.
  destruct (predict_top _ _ _ _ _) as [[top|e] w2]; simpl; [| discriminate].
  intros H. injection H as <- _. now exists d.
Qed.

(** C3 (as amended).  When the lower-cased input contains a trigger phrase of
    a language switch and none of a switch tested before it, [chatbot] stores
    that switch's language code in [current_lang] and returns that switch's
    fixed acknowledgment as a plain string, leaving the history and the
    classifier alone.  The acknowledgments of the Arabic and of the French
    switch are Arabic sentences, the one of the English switch is English. *)
Theorem chatbot_language_switch input w (k : switch) :
  asks E input k = true ->
  (forall k', In k' (tested_before k) -> asks E input k' = false) ->
  chatbot E input w = (Ok (Text (switch_ack k)), with_lang (switch_code k) w)
  /\ written_for (py "ar") (switch_ack ToArabic) = true
  /\ written_for (py "en") (switch_ack ToEnglish) = true
  /\ written_for (py "ar") (switch_ack ToFrench) = true.
Proof.
  intros Hk Hbefore. split; [| now vm_compute].
  destruct k; simpl in Hbefore.
  - now apply chatbot_switch_ar.
  - apply chatbot_switch_en; [apply (Hbefore ToArabic); now left | exact Hk].
  - apply chatbot_switch_fr;
      [apply (Hbefore ToArabic); now left
      | apply (Hbefore ToEnglish); right; now left
      | exact Hk].
Qed.

(** C4.  When the lower-cased input contains no language-switch phrase and
    contains a greeting token of any language's list, [chatbot] returns the
    greeting reply stored for the current shared language, whatever language
    the token belongs to, and changes nothing.  In particular ["hello"] with
    current language ["en"] yields exactly the English greeting. *)
Theorem chatbot_greeting_of_current_language :
  (forall input w lang tokens token greeting,
     (forall k, asks E input k = false) ->
     In (lang, tokens) greetings ->
     In token tokens ->
     contains (lower (unicode_lower E) input) token = true ->
     greeting_responses !! current_lang w = Some greeting ->
     chatbot E input w = (Ok (Text greeting), w))
  /\ (forall w,
        current_lang w = py "en" ->
        chatbot E (py "hello") w
        = (Ok (Text (py "Hello 👋, tell me your symptoms?")), w)).
Proof.
  split.
  - intros input w lang tokens token greeting Hno Hlang Htoken Hin Hreply.
    destruct (asks_none input Hno) as (Har & Hen & Hfr).
    destruct (proj2 (first_greeting_spec (lower (unicode_lower E) input) greetings))
      as [l Hl]; [now exists lang, tokens, token |].
    rewrite (chatbot_greets E input w l Har Hen Hfr Hl), Hreply. reflexivity.
  - intros w Hen.
    rewrite (chatbot_greets E (py "hello") w (py "en"));
      [| now vm_compute ..].
    now rewrite Hen, greeting_en.
Qed.

(** C8.  Greeting tokens are matched as substrings of the lower-cased
    input.  When that text contains no language-switch phrase and has a
    greeting token anywhere inside it, [chatbot] returns one of the greeting
    replies and the classifier is not run: neither by [chatbot] nor by the
    [POST /chat] handler around it. *)
Theorem greeting_is_matched_by_substring input w :
  (forall k, asks E input k = false) ->
  (exists lang tokens token pre post,
     In (lang, tokens) greetings /\ In token tokens /\
     lower (unicode_lower E) input = pre ++ token ++ post) ->
  (exists lang greeting,
     greeting_responses !! lang = Some greeting /\
     chatbot E input w = (Ok (Text greeting), w))
  /\ classifier_calls (snd (chatbot E input w)) = classifier_calls w
  /\ classifier_calls (snd (chat_endpoint E input w)) = classifier_calls w.
Proof.
  intros Hno (lang & tokens & token & pre & post & Hlang & Htoken & Htext).
  destruct (asks_none input Hno) as (Har & Hen & Hfr).
  destruct (proj2 (first_greeting_spec (lower (unicode_lower E) input) greetings))
    as [l Hl].
  { exists lang, tokens, token. repeat split; try assumption.
    apply contains_spec. now exists pre, post. }
  pose proof (chatbot_greets E input w l Har Hen Hfr Hl) as Hrun.
  rewrite (chat_endpoint_text_reply _ _ _ _ Hrun), Hrun. simpl.
  split; [| now split].
  destruct (greeting_responses !! current_lang w) as [g|] eqn:Hg.
  - exists (current_lang w), g. now split.
  - exists (py "en"), (py "Hello 👋, tell me your symptoms?").
    split; [apply greeting_en | reflexivity].
Qed.

(** C10.  When the lower-cased input contains none of the six trigger
    phrases, [chatbot] leaves [current_lang] as it was, and so does the
    [POST /chat] handler. *)
Theorem language_changes_only_on_switch input w :
  (forall phrase, In phrase (switch_ar ++ switch_en ++ switch_fr) ->
     contains (lower (unicode_lower E) input) phrase = false) ->
  current_lang (snd (chatbot E input w)) = current_lang w
  /\ current_lang (snd (chat_endpoint E input w)) = current_lang w.
Proof.
  intros Hnone.
  destruct (asks_none input (no_trigger_asks_none input Hnone)) as (Har & Hen & Hfr).
  assert (Hbot : current_lang (snd (chatbot E input w)) = current_lang w).
  { destruct (first_greeting (lower (unicode_lower E) input) greetings) as [l|] eqn:Hg.
    - now rewrite (chatbot_greets E input w l Har Hen Hfr Hg).
    - rewrite (chatbot_predicts E input w Har Hen Hfr Hg).
      pose proof (predict_disease_frame E input (Some (current_lang w)) w) as [Hl _].
      destruct (predict_disease _ _ _ _) as [[best|e] w']; exact Hl. }
  split; [exact Hbot |].
  unfold chat_endpoint. run_m.
  destruct (chatbot E input w) as [[r|e] w1]; simpl in *; [| exact Hbot].
  destruct (subscript_response r); simpl; [| exact Hbot].
  match goal with
  | |- context [predict_top E ?t ?l ?n ?v] =>
      pose proof (predict_top_frame E t l n v) as [Hl _];
      destruct (predict_top E t l n v) as [[top|e] w2]
  end; simpl in *; now rewrite Hl.
Qed.

End ChatbotClaims.

(** ** Knowledge lookup *)

Section KnowledgeLookup.

Context (E : deployment).

Lemma keeps_precaution_spec (p : cell) :
  keeps_precaution p = true <-> exists s, p = CStr s /\ forallb is_space s = false.
Proof.
  destruct p as [s | shown]; simpl.
  - rewrite negb_true_iff. split.
    + intros H. exists s. split; [reflexivity |].
      apply not_true_is_false. intros Hblank. apply strip_nil in Hblank.
      rewrite Hblank in H. discriminate.
    + intros (s' & Hs & Hblank). injection Hs as <-.
      apply not_true_is_false. intros Heq. apply str_eqb_eq, strip_nil in Heq.
      congruence.
  - split; [discriminate | intros (s & Hs & _); discriminate].
Qed.

(** The prediction branch is the only one that returns a dictionary, and it
    fills it from the two tables at the best prediction's English name. *)
Lemma chatbot_dict_from_lookup (input : str) (w w' : world) (r : chat_dict) :
  chatbot E input w = (Ok (Dict r), w') ->
  exists best,
    predict_disease E input (Some (current_lang w)) w = (Ok best, w')
    /\ disease r = disease_translated best
    /\ description r = lookup_description E (disease_en best)
    /\ precautions r = lookup_precautions E (disease_en best).
Proof.
  destruct (asks_ar E input) eqn:Har;
    [rewrite (chatbot_switch_ar E input w Har); discriminate |].
  destruct (asks_en E input) eqn:Hen;
    [rewrite (chatbot_switch_en E input w Har Hen); discriminate |].
  destruct (asks_fr E input) eqn:Hfr;
    [rewrite (chatbot_switch_fr E input w Har Hen Hfr); discriminate |].
  destruct (first_greeting (lower (unicode_lower E) input) greetings) as [l|] eqn:Hg;
    [rewrite (chatbot_greets E input w l Har Hen Hfr Hg); discriminate |].
  rewrite (chatbot_predicts E input w Har Hen Hfr Hg).
  destruct (predict_disease E input (Some (current_lang w)) w) as [[best|e] w1];
    [| discriminate].
  intros H. injection H as <- <-. exists best. repeat split.
Qed.

(** C5.  A disease missing from the description table gets exactly the
    text "No description available."; a disease missing from the precaution
    table gets the empty list; every precaution list handed out holds only
    strings that are not blank; and the dictionary [chatbot] returns carries
    exactly these two lookups for the best prediction. *)
Theorem knowledge_lookup_fallbacks :
  (forall d, disease_desc E !! d = None ->
     lookup_description E d = CStr (py "No description available."))
  /\ (forall d, disease_prec E !! d = None -> lookup_precautions E d = [])
  /\ (forall d p, In p (lookup_precautions E d) ->
        exists s, p = CStr s /\ forallb is_space s = false)
  /\ (forall input w r w',
        chatbot E input w = (Ok (Dict r), w') ->
        exists best,
          predict_disease E input (Some (current_lang w)) w = (Ok best, w')
          /\ description r = lookup_description E (disease_en best)
          /\ precautions r = lookup_precautions E (disease_en best)).
Proof.
  repeat split.
  - intros d Hd. unfold lookup_description. now rewrite Hd.
  - intros d Hd. unfold lookup_precautions. now rewrite Hd.
  - intros d p Hp. unfold lookup_precautions in Hp.
    apply filter_In in Hp as [_ Hkeep]. now apply keeps_precaution_spec.
  - intros input w r w' Hrun.
    destruct (chatbot_dict_from_lookup input w w' r Hrun) as (best & H1 & _ & H2 & H3).
    now exists best.
Qed.

End KnowledgeLookup.

(** ** Runs on the small deployment *)

(** The switch is found in any spelling, and the first one tested wins. *)
Lemma chatbot_language_switch_witness :
  chatbot demo (py "Please SPEAK French") world0
    = (Ok (Text (switch_ack ToFrench)), with_lang (switch_code ToFrench) world0)
  /\ written_for (py "ar") (switch_ack ToArabic) = true
  /\ written_for (py "en") (switch_ack ToEnglish) = true
  /\ written_for (py "ar") (switch_ack ToFrench) = true.
Proof.
  apply (chatbot_language_switch demo (py "Please SPEAK French") world0 ToFrench).
  - vm_compute. reflexivity.
  - intros k' [<- | [<- | []]]; vm_compute; reflexivity.
Defined.

(** C3 as the specification words it fails for the French switch: the
    acknowledgment [chatbot] returns is not a French sentence, it is written
    in Arabic letters like the one of the Arabic switch. *)
Lemma french_switch_is_acknowledged_in_arabic :
  asks demo (py "speak french") ToFrench = true
  /\ chatbot demo (py "speak french") world0
     = (Ok (Text (py "تمام ✅ هكلمك بالفرنساوي من دلوقتي!")), with_lang (py "fr") world0)
  /\ written_for (py "fr") (py "تمام ✅ هكلمك بالفرنساوي من دلوقتي!") = false.
Proof. vm_compute. repeat split. Qed.

(** A French greeting is answered in English while the current language is
    English. *)
Lemma chatbot_greeting_of_current_language_witness :
  chatbot demo (py "bonjour") world0
  = (Ok (Text (py "Hello 👋, tell me your symptoms?")), world0).
Proof.
  apply (proj1 (chatbot_greeting_of_current_language demo)
           (py "bonjour") world0 (py "fr") [py "bonjour"; py "salut"] (py "bonjour")).
  - intros []; vm_compute; reflexivity.
  - vm_compute. tauto.
  - vm_compute. tauto.
  - vm_compute. reflexivity.
  - vm_compute. reflexivity.
Defined.

(** "chills" contains the greeting token "hi". *)
Lemma greeting_is_matched_by_substring_witness :
  (exists lang greeting,
     greeting_responses !! lang = Some greeting /\
     chatbot demo (py "chills") world0 = (Ok (Text greeting), world0))
  /\ classifier_calls (snd (chatbot demo (py "chills") world0)) = classifier_calls world0
  /\ classifier_calls (snd (chat_endpoint demo (py "chills") world0))
     = classifier_calls world0.
Proof.
  apply (greeting_is_matched_by_substring demo (py "chills") world0).
  - intros []; vm_compute; reflexivity.
  - exists (py "en"), [py "hello"; py "hi"; py "hey"], (py "hi"), (py "c"), (py "lls").
    vm_compute. tauto.
Defined.

Lemma language_changes_only_on_switch_witness :
  current_lang (snd (chatbot demo (py "fever and cough") world0)) = current_lang world0
  /\ current_lang (snd (chat_endpoint demo (py "fever and cough") world0))
     = current_lang world0.
Proof.
  apply (language_changes_only_on_switch demo (py "fever and cough") world0).
  intros phrase Hin. vm_compute in Hin.
  repeat (destruct Hin as [<- | Hin]; [vm_compute; reflexivity |]).
  destruct Hin.
Defined.

(** "Malaria" has no description in the small deployment, "Scurvy" no
    precautions. *)
Lemma knowledge_lookup_fallbacks_witness :
  lookup_description demo (py "Malaria") = CStr (py "No description available.")
  /\ lookup_precautions demo (py "Scurvy") = [].
Proof.
  split.
  - apply (proj1 (knowledge_lookup_fallbacks demo)). vm_compute. reflexivity.
  - apply (proj1 (proj2 (knowledge_lookup_fallbacks demo))). vm_compute. reflexivity.
Defined.

(** C1 fails on the code.  For the message "hello" [chatbot] returns a plain
    string, and [chat_endpoint] raises [TypeError] when it subscripts that
    string with ["response"]: the request ends in an error, not in an object
    with a ["chat"] mapping.  Nothing was appended to the history. *)
Theorem chat_endpoint_raises_on_greeting (E : deployment) (w : world) :
  chat_endpoint E (py "hello") w = (Raise TypeError, w).
Proof.
  apply (chat_endpoint_text_reply E (py "hello") w
           (default (py "Hello 👋, tell me your symptoms?")
              (greeting_responses !! current_lang w))).
  apply (chatbot_greets E (py "hello") w (py "en")); now vm_compute.
Qed.

(** The same happens for every message [chatbot] answers with a string:
    every language switch and every greeting. *)
Lemma chat_endpoint_raises_on_switch (E : deployment) (input : str) (w : world) (k : switch) :
  asks E input k = true ->
  exists w', chat_endpoint E input w = (Raise TypeError, w').
Proof.
  intros Hk.
  destruct (asks_ar E input) eqn:Har.
  { eexists. eapply chat_endpoint_text_reply. now apply chatbot_switch_ar. }
  destruct (asks_en E input) eqn:Hen.
  { eexists. eapply chat_endpoint_text_reply. now apply chatbot_switch_en. }
  destruct (asks_fr E input) eqn:Hfr.
  { eexists. eapply chat_endpoint_text_reply. now apply chatbot_switch_fr. }
  destruct k; unfold asks in Hk; cbn [triggers] in Hk;
    unfold asks_ar, asks_en, asks_fr in *; congruence.
Qed.

(** C2 fails on the code for the bound 0.  [argsort()[-0:]] is the whole
    array, so [predict_top] with [top_n = 0] returns an entry for every
    class: three entries on the small deployment, where the bound allows
    none. *)
Theorem predict_top_zero_returns_every_class :
  exists top w',
    predict_top demo (py "fever") (Some (py "en")) 0 world0 = (Ok top, w')
    /\ length top = 3%nat
    /\ map pred_confidence top = [ (6 # 10); (3 # 10); (1 # 10) ]%Q.
Proof. eexists _, _. vm_compute. repeat split. Qed.

(** ** The doctor lookup client *)

(** The query holds each argument whole, under its own name, and leaves out
    an argument that is [None] or empty. *)
Lemma request_params_spec (disease symptom : option str) (k v : str) :
  In (k, v) (DoctorsApi.request_params disease symptom) <->
  (k = py "disease" /\ disease = Some v /\ v <> [])
  \/ (k = py "symptom" /\ symptom = Some v /\ v <> []).
Proof.
  assert (Hone : forall name (arg : option str),
    In (k, v) (match arg with
               | Some ((_ :: _) as d) => [(name, d)]
               | _ => []
               end)
    <-> k = name /\ arg = Some v /\ v <> []).
  { intros name [[|c d]|]; simpl; split.
    - intros [].
    - intros (_ & H & Hne). injection H as <-. now destruct Hne.
    - intros [H | []]. injection H as <- <-. repeat split. discriminate.
    - intros (-> & H & _). injection H as <-. now left.
    - intros [].
    - intros (_ & H & _). discriminate. }
  unfold DoctorsApi.request_params. rewrite in_app_iff, !Hone. reflexivity.
Qed.

Lemma request_params_demo :
  DoctorsApi.request_params (Some (py "Diabetes")) (Some (py "Fever"))
  = [ (py "disease", py "Diabetes"); (py "symptom", py "Fever") ]
  /\ DoctorsApi.request_params (Some []) None = [].
Proof. split; reflexivity. Qed.

(** The doctors of a disease are those the directory lists for the request
    that names it. *)
Lemma get_doctors_asks_for_the_disease :
  DoctorsApi.get_doctors
    (DoctorsApi.only_for [ (py "disease", py "Diabetes") ] (Ok DoctorsApi.two_doctors))
    (Some (py "Diabetes")) None
  = Ok (DoctorsApi.doctors_payload
          [ DoctorsApi.JObj [ (py "name", DoctorsApi.JStr (py "Dr. Amal"));
                              (py "phone", DoctorsApi.JStr (py "555-0101")) ];
            DoctorsApi.JObj [ (py "name", DoctorsApi.JStr (py "Dr. Brun"));
                              (py "rating", DoctorsApi.JNum (9 # 2)) ] ]).
Proof. vm_compute. reflexivity. Qed.

Section DoctorLookup.

Import DoctorsApi.

Context (directory : list (str * str) -> http_outcome).

Implicit Types (disease symptom : option str) (r : http_response) (data : json).

(** Once the request has succeeded and the body is JSON, the payload is
    shaped from the body alone. *)
Lemma get_doctors_parsed disease symptom r data :
  directory (request_params disease symptom) = Responded r ->
  raises_for_status r = false ->
  json_body r = Ok data ->
  get_doctors directory disease symptom = shape data.
Proof. unfold get_doctors. intros -> -> ->. reflexivity. Qed.


Lemma iterate_truthy (found : json) (docs : list json) :
  truthy found = true -> iterate found = Ok docs -> docs <> [].
Proof.
  destruct found as [| b | q | s | items | members]; simpl; try discriminate;
    intros Ht H; injection H as <-.
  - destruct s; [discriminate | simpl; discriminate].
  - destruct items; [discriminate | discriminate].
  - destruct members; [discriminate | simpl; discriminate].
Qed.

Lemma doctors_payload_keys (docs : list json) :
  has_key (doctors_payload docs) (py "count") = true
  /\ has_key (doctors_payload docs) (py "doctors") = true
  /\ has_key (doctors_payload docs) (py "error") = false.
Proof. now vm_compute. Qed.


(** C7 (as amended).  A failure of the request is caught and returned as a
    payload with the single field ["error"]: both when [requests.get] raises
    and when the response has a status from 400 to 599, for which
    [raise_for_status] raises.  No exception leaves the call. *)
Theorem get_doctors_catches_request_failure disease symptom :
  (forall message,
     directory (request_params disease symptom) = RequestFailed message ->
     get_doctors directory disease symptom
     = Ok (JObj [ (py "error", JStr (py "Failed to fetch doctors: " ++ message)) ]))
  /\ (forall r,
        directory (request_params disease symptom) = Responded r ->
        (400 <= status_code r < 600)%Z ->
        get_doctors directory disease symptom
        = Ok (JObj [ (py "error", JStr (py "Failed to fetch doctors: " ++ error_text r)) ])).
Proof.
  split.
  - intros message H. unfold get_doctors. now rewrite H.
  - intros r H [Hlo Hhi]. unfold get_doctors. rewrite H.
    unfold raises_for_status.
    apply Z.leb_le in Hlo. apply Z.ltb_lt in Hhi. now rewrite Hlo, Hhi.
Qed.


End DoctorLookup.


(** C7 as the specification words it fails for a status that is not 200 and
    not an error either: a 201 answer is shaped like a 200 one, and the
    payload has no error field. *)
Lemma status_201_is_no_failure :
  DoctorsApi.status_code DoctorsApi.created_201 <> 200%Z
  /\ exists payload,
       DoctorsApi.get_doctors (fun _ => DoctorsApi.Responded DoctorsApi.created_201)
         (Some (py "Diabetes")) None = Ok payload
       /\ DoctorsApi.has_key payload (py "count") = true
       /\ DoctorsApi.has_key payload (py "error") = false.
Proof.
  split; [discriminate |]. eexists. vm_compute. repeat split.
Qed.

Lemma get_doctors_catches_request_failure_witness :
  DoctorsApi.get_doctors (DoctorsApi.answers 404 (Raise ValueError)) (Some (py "Diabetes")) None
  = Ok (DoctorsApi.JObj
          [ (py "error", DoctorsApi.JStr (py "Failed to fetch doctors: " ++ py "HTTP error")) ]).
Proof.
  refine (proj2 (get_doctors_catches_request_failure
                   (DoctorsApi.answers 404 (Raise ValueError)) (Some (py "Diabetes")) None)
            _ eq_refl _).
  simpl. lia.
Defined.



(** ** Ranking *)

Section Ranking.

Variable probs : list Q.

Lemma insert_by_length (i : nat) (l : list nat) :
  length (insert_by probs i l) = S (length l).
Proof.
  induction l as [|j l IH]; simpl; [reflexivity |].
  destruct (Qle_bool _ _); simpl; [reflexivity | now rewrite IH].
Qed.

Lemma insert_by_Forall (P : nat -> Prop) (i : nat) (l : list nat) :
  P i -> Forall P l -> Forall P (insert_by probs i l).
Proof.
  intros Hi Hl. induction Hl as [|j l Hj Hl IH]; simpl.
  - now constructor.
  - destruct (Qle_bool _ _); repeat constructor; assumption.
Qed.

Lemma insert_by_sorted (i : nat) (l : list nat) :
  StronglySorted (ranks_below probs) l ->
  StronglySorted (ranks_below probs) (insert_by probs i l).
Proof.
  induction 1 as [|j l Hl IH Hj]; simpl.
  - repeat constructor.
  - destruct (Qle_bool (prob_at probs i) (prob_at probs j)) eqn:Hij.
    + apply Qle_bool_iff in Hij. constructor; [now constructor |].
      constructor; [exact Hij |].
      eapply List.Forall_impl; [| exact Hj]. intros k Hk. unfold ranks_below in *.
      now apply Qle_trans with (prob_at probs j).
    + constructor; [exact IH |]. apply insert_by_Forall; [| exact Hj].
      unfold ranks_below. apply Qlt_le_weak, Qnot_le_lt. intros Hle.
      apply Qle_bool_iff in Hle. congruence.
Qed.

Lemma sort_by_length (l : list nat) :
  length (fold_right (insert_by probs) [] l) = length l.
Proof.
  induction l as [|i l IH]; simpl; [reflexivity |].
  now rewrite insert_by_length, IH.
Qed.

Lemma sort_by_sorted (l : list nat) :
  StronglySorted (ranks_below probs) (fold_right (insert_by probs) [] l).
Proof.
  induction l as [|i l IH]; simpl; [constructor | now apply insert_by_sorted].
Qed.

Lemma sort_by_Forall (P : nat -> Prop) (l : list nat) :
  Forall P l -> Forall P (fold_right (insert_by probs) [] l).
Proof.
  induction 1 as [|i l Hi Hl IH]; simpl; [constructor | now apply insert_by_Forall].
Qed.

(** [argsort] lists every class index once, in ascending order of
    probability. *)
Lemma argsort_length : length (argsort probs) = length probs.
Proof. unfold argsort. now rewrite sort_by_length, length_seq. Qed.

Lemma argsort_sorted : StronglySorted (ranks_below probs) (argsort probs).
Proof. apply sort_by_sorted. Qed.

Lemma argsort_in_range :
  Forall (fun i => (i < length probs)%nat) (argsort probs).
Proof.
  apply sort_by_Forall, List.Forall_forall. intros i Hi.
  apply in_seq in Hi. lia.
Qed.

End Ranking.

Lemma In_drop {A} (x : A) (k : nat) (l : list A) :
  In x (drop k l) -> In x l.
Proof.
  revert l. induction k as [|k IH]; intros l; [trivial |].
  destruct l as [|a l]; simpl; [trivial |]. intros H. right. now apply IH.
Qed.

Lemma StronglySorted_drop {A} (R : A -> A -> Prop) (k : nat) (l : list A) :
  StronglySorted R l -> StronglySorted R (drop k l).
Proof.
  revert l. induction k as [|k IH]; intros l Hl; [exact Hl |].
  destruct l as [|a l]; [constructor |]. simpl. apply IH.
  now apply StronglySorted_inv in Hl.
Qed.

Lemma StronglySorted_snoc {A} (R : A -> A -> Prop) (l : list A) (a : A) :
  StronglySorted R l -> Forall (fun x => R x a) l -> StronglySorted R (l ++ [a]).
Proof.
  induction 1 as [|b l Hl IH Hb]; intros Ha; simpl.
  - repeat constructor.
  - apply List.Forall_cons_iff in Ha as [Hba Ha]. constructor; [now apply IH |].
    apply List.Forall_app. split; [exact Hb | now repeat constructor].
Qed.

Lemma StronglySorted_rev {A} (R : A -> A -> Prop) (l : list A) :
  StronglySorted R l -> StronglySorted (fun a b => R b a) (rev l).
Proof.
  induction 1 as [|a l Hl IH Ha]; simpl; [constructor |].
  apply StronglySorted_snoc; [exact IH |].
  apply List.Forall_forall. intros x Hx. apply in_rev in Hx.
  rewrite List.Forall_forall in Ha. now apply Ha.
Qed.

Lemma StronglySorted_map {A B} (R : B -> B -> Prop) (f : A -> B) (l : list A) :
  StronglySorted (fun a b => R (f a) (f b)) l -> StronglySorted R (map f l).
Proof.
  induction 1 as [|a l Hl IH Ha]; simpl; constructor; [exact IH |].
  apply List.Forall_map. exact Ha.
Qed.

(** The selected indices are in order of non-increasing probability,
    whatever the bound. *)
Lemma top_indices_sorted (probs : list Q) (n : Z) :
  StronglySorted (fun i j => ranks_below probs j i) (top_indices probs n).
Proof.
  unfold top_indices, slice_from.
  apply StronglySorted_rev, StronglySorted_drop, argsort_sorted.
Qed.

(** For a bound of at least 1 the selection has [min n classes] indices. *)
Lemma top_indices_length (probs : list Q) (n : Z) :
  (1 <= n)%Z ->
  length (top_indices probs n) = Nat.min (Z.to_nat n) (length probs).
Proof.
  intros Hn. unfold top_indices, slice_from.
  rewrite length_rev, length_drop, argsort_length.
  destruct (Z.ltb_spec (- n) 0); lia.
Qed.

(** With the bound 0 the slice [[-0:]] keeps every index. *)
Lemma top_indices_zero (probs : list Q) :
  top_indices probs 0 = rev (argsort probs).
Proof.
  unfold top_indices, slice_from. simpl.
  rewrite Z.min_l by lia. reflexivity.
Qed.

Lemma top_indices_in_range (probs : list Q) (n : Z) :
  Forall (fun i => (i < length probs)%nat) (top_indices probs n).
Proof.
  unfold top_indices, slice_from. apply List.Forall_forall. intros i Hi.
  apply in_rev in Hi. pose proof (argsort_in_range probs) as Hall.
  rewrite List.Forall_forall in Hall. apply Hall.
  now apply In_drop in Hi.
Qed.

Lemma zip3_confidences (ds ts : list str) (cs : list Q) :
  length ds = length cs -> length ts = length cs ->
  map pred_confidence (zip3 ds ts cs) = cs.
Proof.
  revert ds ts. induction cs as [|c cs IH]; intros [|d ds] [|t ts]; simpl;
    try discriminate; try reflexivity.
  intros Hd Ht. f_equal. apply IH; congruence.
Qed.

Lemma inverse_transform_length (classes : list str) (idx : list nat) (names : list str) :
  inverse_transform classes idx = Ok names -> length names = length idx.
Proof.
  unfold inverse_transform. destruct (forallb _ _); [| discriminate].
  intros H. injection H as <-. apply length_map.
Qed.

Section PredictTop.

Context (E : deployment).

(** What a successful [predict_top] has computed. *)
Lemma predict_top_ok (text : str) (lang : option str) (n : Z) (w w' : world)
    (top : list prediction) :
  predict_top E text lang n w = (Ok top, w') ->
  exists text_en probs names,
    translate E text = Ok text_en
    /\ softmax_probs E text_en = Ok probs
    /\ inverse_transform (le_classes E) (top_indices probs n) = Ok names
    /\ map pred_confidence top = map (prob_at probs) (top_indices probs n)
    /\ classifier_calls w' = text_en :: classifier_calls w.
Proof.
  unfold predict_top. run_m.
  destruct (translate E text) as [text_en|]; [| discriminate].
  destruct (softmax_probs E text_en) as [probs|] eqn:Hprobs; [| discriminate].
  destruct (inverse_transform _ _) as [names|] eqn:Hnames; [| discriminate].
  pose proof (inverse_transform_length _ _ _ Hnames) as Hlen.
  assert (Hconf : forall l,
    map pred_confidence
      (zip3 names (map (translated_name l) names)
         (map (prob_at probs) (top_indices probs n)))
    = map (prob_at probs) (top_indices probs n)).
  { intros l. apply zip3_confidences; rewrite !length_map; congruence. }
  destruct lang as [l|].
  - intros H. injection H as <- <-. exists text_en, probs, names.
    repeat split; auto.
  - destruct (detect E text) as [l|]; [| discriminate].
    intros H. injection H as <- <-. exists text_en, probs, names.
    repeat split; auto.
Qed.

(** For a bound of at least 1, [predict_top] returns at most that many
    entries. *)
Theorem predict_top_at_most_n (text : str) (lang : option str) (n : Z)
    (w w' : world) (top : list prediction) :
  (1 <= n)%Z ->
  predict_top E text lang n w = (Ok top, w') ->
  (Z.of_nat (length top) <= n)%Z.
Proof.
  intros Hn Hrun.
  destruct (predict_top_ok _ _ _ _ _ _ Hrun) as (text_en & probs & names & _ & _ & _ & Hconf & _).
  apply (f_equal (@length Q)) in Hconf. rewrite !length_map in Hconf.
  rewrite Hconf, (top_indices_length probs n Hn). lia.
Qed.

(** The entries [predict_top] returns are in order of non-increasing
    confidence. *)
Theorem predict_top_sorted (text : str) (lang : option str) (n : Z)
    (w w' : world) (top : list prediction) :
  predict_top E text lang n w = (Ok top, w') ->
  by_falling_confidence top.
Proof.
  intros Hrun.
  destruct (predict_top_ok _ _ _ _ _ _ Hrun) as (text_en & probs & names & _ & _ & _ & Hconf & _).
  pose proof (StronglySorted_map (fun a b => (b <= a)%Q) (prob_at probs) _
                (top_indices_sorted probs n)) as Hsorted.
  rewrite <- Hconf in Hsorted. clear Hconf Hrun. unfold by_falling_confidence.
  induction top as [|p top IH]; [constructor |].
  simpl in Hsorted. apply StronglySorted_inv in Hsorted as [Hrest Hp].
  constructor; [now apply IH |]. rewrite List.Forall_map in Hp. exact Hp.
Qed.

(** Every confidence [predict_top] returns is one of the class probabilities
    the model produced for this text, that is for its translation: when
    those lie in [0,1], so do the confidences. *)
Theorem predict_top_confidence_range (text : str) (lang : option str) (n : Z)
    (w w' : world) (top : list prediction) :
  predict_top E text lang n w = (Ok top, w') ->
  exists text_en probs,
    translate E text = Ok text_en
    /\ softmax_probs E text_en = Ok probs
    /\ Forall (fun p => exists i,
                  (i < length probs)%nat /\ pred_confidence p = prob_at probs i) top
    /\ Forall (fun p => In (pred_confidence p) probs) top
    /\ (Forall (fun q => (0 <= q /\ q <= 1)%Q) probs ->
        Forall (fun p => (0 <= pred_confidence p /\ pred_confidence p <= 1)%Q) top).
Proof.
  intros Hrun.
  destruct (predict_top_ok _ _ _ _ _ _ Hrun)
    as (text_en & probs & names & Htr & Hprobs & _ & Hconf & _).
  exists text_en, probs. split; [exact Htr | split; [exact Hprobs |]].
  assert (Hat : Forall (fun p => exists i,
                          (i < length probs)%nat /\ pred_confidence p = prob_at probs i) top).
  { pose proof (top_indices_in_range probs n) as Hrange. clear Hrun.
    revert top Hconf. induction (top_indices probs n) as [|i l IH]; intros top Hconf.
    - destruct top; [constructor | discriminate].
    - destruct top as [|p top]; [discriminate |].
      simpl in Hconf. injection Hconf as Hp Hrest.
      apply List.Forall_cons_iff in Hrange as [Hi Hl].
      constructor; [now exists i | now apply IH]. }
  assert (Hin : Forall (fun p => In (pred_confidence p) probs) top).
  { eapply List.Forall_impl; [| exact Hat].
    intros p (i & Hi & ->). unfold prob_at. now apply nth_In. }
  split; [exact Hat | split; [exact Hin |]].
  intros Hmodel. eapply List.Forall_impl; [| exact Hin].
  intros p Hp. rewrite List.Forall_forall in Hmodel. now apply Hmodel.
Qed.

End PredictTop.

(** ** The handlers and the shared globals *)

Section Handlers.

Context (E : deployment).

(** A successful [POST /chat] appends exactly one turn to the history: the
    message and the response text of the dictionary it returns. *)
Theorem chat_endpoint_appends_turn (message : str) (w w' : world)
    (payload : chat_payload) :
  chat_endpoint E message w = (Ok payload, w') ->
  exists d,
    chat payload = Dict d
    /\ chat_history w' = chat_history w ++ [{| user := message; bot := response d |}]
    /\ history payload = chat_history w'.
Proof.
  unfold chat_endpoint. run_m.
  destruct (chatbot E message w) as [[[s|d]|e] w1] eqn:Hbot; simpl; try discriminate.
  destruct (chatbot_dict_from_lookup E message w w1 d Hbot) as (best & Hbest & _).
  pose proof (predict_disease_frame E message (Some (current_lang w)) w) as [_ Hh].
  rewrite Hbest in Hh. simpl in Hh.
  match goal with
  | |- context [predict_top E ?t ?l ?n ?v] =>
      pose proof (predict_top_frame E t l n v) as [_ Hh2];
      destruct (predict_top E t l n v) as [[top|e] w2]
  end; simpl in *; [| discriminate].
  intros H. injection H as <- <-. exists d. simpl. rewrite Hh2, Hh. auto.
Qed.

(** [current_lang] only ever holds one of the three codes. *)
Theorem chatbot_keeps_known_language (input : str) (w : world) :
  known_lang (current_lang w) ->
  known_lang (current_lang (snd (chatbot E input w))).
Proof.
  intros Hw.
  destruct (asks_ar E input) eqn:Har.
  { rewrite (chatbot_switch_ar E input w Har). now left. }
  destruct (asks_en E input) eqn:Hen.
  { rewrite (chatbot_switch_en E input w Har Hen). right. now left. }
  destruct (asks_fr E input) eqn:Hfr.
  { rewrite (chatbot_switch_fr E input w Har Hen Hfr). right. now right. }
  destruct (first_greeting (lower (unicode_lower E) input) greetings) as [l|] eqn:Hg.
  - now rewrite (chatbot_greets E input w l Har Hen Hfr Hg).
  - rewrite (chatbot_predicts E input w Har Hen Hfr Hg).
    pose proof (predict_disease_frame E input (Some (current_lang w)) w) as [Hl _].
    destruct (predict_disease _ _ _ _) as [[best|e] w']; simpl in *; now rewrite Hl.
Qed.

End Handlers.

Lemma predict_top_at_most_n_witness :
  (Z.of_nat (length [ {| disease_en := py "Malaria";
                         disease_translated := py "Paludisme";
                         pred_confidence := 6 # 10 |};
                      {| disease_en := py "Scurvy";
                         disease_translated := py "Scurvy";
                         pred_confidence := 3 # 10 |} ]) <= 2)%Z.
Proof.
  refine (predict_top_at_most_n demo (py "fever") (Some (py "fr")) 2 world0 _ _ _ _).
  - lia.
  - vm_compute. reflexivity.
Defined.

Lemma predict_top_sorted_witness :
  by_falling_confidence
    [ {| disease_en := py "Malaria";
         disease_translated := py "Paludisme";
         pred_confidence := 6 # 10 |};
      {| disease_en := py "Scurvy";
         disease_translated := py "Scurvy";
         pred_confidence := 3 # 10 |} ].
Proof.
  refine (predict_top_sorted demo (py "fever") (Some (py "fr")) 2 world0 _ _ _).
  vm_compute. reflexivity.
Defined.

Lemma chatbot_keeps_known_language_witness :
  known_lang (current_lang (snd (chatbot demo (py "speak french") world0))).
Proof.
  apply (chatbot_keeps_known_language demo (py "speak french") world0).
  right. now left.
Defined.

Lemma predict_top_confidence_range_witness :
  exists text_en probs,
    translate demo (py "fever") = Ok text_en
    /\ softmax_probs demo text_en = Ok probs
    /\ Forall (fun p => exists i,
                  (i < length probs)%nat /\ pred_confidence p = prob_at probs i)
         [ {| disease_en := py "Malaria";
              disease_translated := py "Paludisme";
              pred_confidence := 6 # 10 |};
           {| disease_en := py "Scurvy";
              disease_translated := py "Scurvy";
              pred_confidence := 3 # 10 |} ]
    /\ Forall (fun p => In (pred_confidence p) probs)
         [ {| disease_en := py "Malaria";
              disease_translated := py "Paludisme";
              pred_confidence := 6 # 10 |};
           {| disease_en := py "Scurvy";
              disease_translated := py "Scurvy";
              pred_confidence := 3 # 10 |} ]
    /\ (Forall (fun q => (0 <= q /\ q <= 1)%Q) probs ->
        Forall (fun p => (0 <= pred_confidence p /\ pred_confidence p <= 1)%Q)
          [ {| disease_en := py "Malaria";
               disease_translated := py "Paludisme";
               pred_confidence := 6 # 10 |};
            {| disease_en := py "Scurvy";
               disease_translated := py "Scurvy";
               pred_confidence := 3 # 10 |} ]).
Proof.
  refine (predict_top_confidence_range demo (py "fever") (Some (py "fr")) 2 world0 _ _ _).
  vm_compute. reflexivity.
Defined.

Lemma chat_endpoint_appends_turn_witness :
  exists payload w',
    chat_endpoint demo (py "fever and cough") world0 = (Ok payload, w')
    /\ exists d,
         chat payload = Dict d
         /\ chat_history w'
            = chat_history world0 ++ [{| user := py "fever and cough"; bot := response d |}]
         /\ history payload = chat_history w'.
Proof.
  eexists _, _. split.
  - vm_compute. reflexivity.
  - apply (chat_endpoint_appends_turn demo (py "fever and cough") world0).
    vm_compute. reflexivity.
Defined.

(** ** Trigger phrases in any case *)

Lemma lower_from_uncased tbl (v before rest : str) :
  Forall (fun c => (c < 128)%N \/ uncased tbl c) v ->
  lower_from tbl before (v ++ rest)
  = map ascii_lower v ++ lower_from tbl (before ++ v) rest.
Proof.
  revert before. induction v as [|c v IH]; intros before Hv; simpl.
  - now rewrite app_nil_r.
  - apply List.Forall_cons_iff in Hv as [Hc Hv].
    rewrite (IH _ Hv), <- app_assoc. simpl. f_equal.
    destruct (c <? 128)%N eqn:Hlt; [reflexivity |].
    apply N.ltb_ge in Hlt. destruct Hc as [Hc | Hc]; [lia |].
    rewrite Hc. unfold ascii_lower.
    destruct ((65 <=? c)%N && (c <=? 90)%N) eqn:Hup; [| reflexivity].
    apply andb_prop in Hup as [_ Hup]. apply N.leb_le in Hup. lia.
Qed.

(** A spelling of a text of ASCII characters and Arabic letters is itself
    made of ASCII characters and Arabic letters. *)
Lemma spelling_code_points (v phrase : str) :
  map ascii_lower v = phrase ->
  forallb (fun c => (c <? 128)%N || is_arabic_letter c) phrase = true ->
  Forall (fun c => (c < 128)%N \/ is_arabic_letter c = true) v.
Proof.
  intros <-. induction v as [|c v IH]; simpl; intros H; [constructor |].
  apply andb_prop in H as [Hc Hv]. constructor; [| now apply IH].
  unfold ascii_lower in Hc.
  destruct ((65 <=? c)%N && (c <=? 90)%N) eqn:Hup.
  - left. apply andb_prop in Hup as [_ Hup]. apply N.leb_le in Hup. lia.
  - apply orb_prop in Hc as [Hc | Hc]; [left; now apply N.ltb_lt | now right].
Qed.

(** Each of the six trigger phrases is made of ASCII characters and Arabic
    letters, and is in lower case. *)
Lemma trigger_code_points (k : switch) (phrase : str) :
  In phrase (triggers k) ->
  forallb (fun c => (c <? 128)%N || is_arabic_letter c) phrase = true
  /\ map ascii_lower phrase = phrase.
Proof.
  intros Hin.
  destruct k; cbn [triggers] in Hin;
    repeat (destruct Hin as [<- | Hin]; [split; vm_compute; reflexivity |]);
    destruct Hin.
Qed.

(** Any of the trigger phrases of a switch is found in the input whatever
    the case of its ASCII letters and wherever it stands in the input, as
    long as [str.lower] leaves the letters of the Arabic block unchanged. *)
Theorem trigger_phrase_found_in_any_case (E : deployment) (k : switch)
    (phrase pre v post : str) :
  (forall c, is_arabic_letter c = true -> uncased (unicode_lower E) c) ->
  In phrase (triggers k) ->
  map ascii_lower v = phrase ->
  asks E (pre ++ v ++ post) k = true.
Proof.
  intros Harabic Hin Hv. apply any_in_spec. exists phrase. split; [exact Hin |].
  apply contains_spec. unfold lower.
  destruct (lower_from_skip (unicode_lower E) pre [] (v ++ post)) as [out ->].
  rewrite lower_from_uncased, Hv; [now eexists _, _ |].
  eapply List.Forall_impl;
    [| exact (spelling_code_points v phrase Hv (proj1 (trigger_code_points k phrase Hin)))].
  intros c [Hc | Hc]; [now left | right; now apply Harabic].
Qed.

Lemma trigger_phrase_found_in_any_case_witness :
  asks demo (py "OK, " ++ py "كلمني عربي" ++ py " Please") ToArabic = true
  /\ asks demo (py "Please " ++ py "SPEAK French" ++ py " now") ToFrench = true.
Proof.
  split.
  - apply (trigger_phrase_found_in_any_case demo ToArabic (py "كلمني عربي")).
    + intros c _ before after. reflexivity.
    + vm_compute. tauto.
    + vm_compute. reflexivity.
  - apply (trigger_phrase_found_in_any_case demo ToFrench (py "speak french")).
    + intros c _ before after. reflexivity.
    + vm_compute. tauto.
    + vm_compute. reflexivity.
Defined.

(** ** Further facts *)

(** Whenever some switch is asked for, one of them is the first in the order
    of the tests, and that one decides the reply. *)
Lemma first_switch_exists (E : deployment) (input : str) (k : switch) :
  asks E input k = true ->
  exists k0,
    asks E input k0 = true
    /\ forall k', In k' (tested_before k0) -> asks E input k' = false.
Proof.
  intros Hk.
  destruct (asks E input ToArabic) eqn:Har.
  { exists ToArabic. split; [exact Har | intros k' []]. }
  destruct (asks E input ToEnglish) eqn:Hen.
  { exists ToEnglish. split; [exact Hen |]. intros k' [<- | []]. exact Har. }
  exists ToFrench. split.
  - destruct k; congruence.
  - intros k' [<- | [<- | []]]; assumption.
Qed.

(** The filter drops the missing cell and the blank string. *)
Example lookup_precautions_demo :
  lookup_precautions demo (py "Malaria")
  = [CStr (py "Consult nearest hospital"); CStr (py "avoid oily food")].
Proof. vm_compute. reflexivity. Qed.

Section DoctorLookupShapes.

Import DoctorsApi.

Context (directory : list (str * str) -> http_outcome).

(** A body that is neither a list nor a mapping with a ["doctors"] member
    is handed back under ["raw"] with a diagnostic message. *)
Theorem get_doctors_unexpected_structure (disease symptom : option str)
    (r : http_response) (data : json) :
  directory (request_params disease symptom) = Responded r ->
  raises_for_status r = false ->
  json_body r = Ok data ->
  select_doctors data = None ->
  get_doctors directory disease symptom
  = Ok (JObj [ (py "message", JStr (py "Unexpected API response structure."));
               (py "raw", data) ]).
Proof.
  intros Hreq Hstatus Hbody Hsel.
  rewrite (get_doctors_parsed directory _ _ _ _ Hreq Hstatus Hbody).
  unfold shape. now rewrite Hsel.
Qed.

(** A body that is not JSON gives an error payload of its own. *)
Theorem get_doctors_invalid_json (disease symptom : option str) (r : http_response) :
  directory (request_params disease symptom) = Responded r ->
  raises_for_status r = false ->
  json_body r = Raise ValueError ->
  get_doctors directory disease symptom
  = Ok (JObj [ (py "error", JStr (py "Invalid response format from Doctors API.")) ]).
Proof. unfold get_doctors. intros -> -> ->. reflexivity. Qed.

End DoctorLookupShapes.

Lemma get_doctors_unexpected_structure_witness :
  DoctorsApi.get_doctors
    (DoctorsApi.answers 200 (Ok (DoctorsApi.JStr (py "maintenance"))))
    (Some (py "Diabetes")) None
  = Ok (DoctorsApi.JObj
          [ (py "message", DoctorsApi.JStr (py "Unexpected API response structure."));
            (py "raw", DoctorsApi.JStr (py "maintenance")) ]).
Proof.
  refine (get_doctors_unexpected_structure
            (DoctorsApi.answers 200 (Ok (DoctorsApi.JStr (py "maintenance"))))
            (Some (py "Diabetes")) None _ _ eq_refl eq_refl eq_refl eq_refl).
Defined.

Lemma get_doctors_invalid_json_witness :
  DoctorsApi.get_doctors (DoctorsApi.answers 200 (Raise ValueError)) (Some (py "Diabetes")) None
  = Ok (DoctorsApi.JObj
          [ (py "error", DoctorsApi.JStr (py "Invalid response format from Doctors API.")) ]).
Proof.
  refine (get_doctors_invalid_json (DoctorsApi.answers 200 (Raise ValueError))
            (Some (py "Diabetes")) None _ eq_refl eq_refl eq_refl).
Defined.

(** * More of the code *)

(** ** Which classes [predict_top] selects *)

Section Selection.

Variable probs : list Q.

Lemma insert_by_perm (i : nat) (l : list nat) :
  Permutation (insert_by probs i l) (i :: l).
Proof.
  induction l as [|j l IH]; simpl; [reflexivity |].
  destruct (Qle_bool _ _); [reflexivity |].
  apply perm_trans with (j :: i :: l); [now apply perm_skip | apply perm_swap].
Qed.

Lemma sort_by_perm (l : list nat) :
  Permutation (fold_right (insert_by probs) [] l) l.
Proof.
  induction l as [|i l IH]; simpl; [reflexivity |].
  apply perm_trans with (i :: fold_right (insert_by probs) [] l);
    [apply insert_by_perm | now apply perm_skip].
Qed.

(** [argsort] lists every class index exactly once. *)
Lemma argsort_perm : Permutation (argsort probs) (seq 0 (length probs)).
Proof. apply sort_by_perm. Qed.

Lemma argsort_NoDup : List.NoDup (argsort probs).
Proof.
  apply (Permutation_NoDup (Permutation_sym argsort_perm)), List.seq_NoDup.
Qed.

Lemma In_argsort (i : nat) : In i (argsort probs) <-> (i < length probs)%nat.
Proof.
  split.
  - intros H. apply (Permutation_in _ argsort_perm), in_seq in H. lia.
  - intros H. apply (Permutation_in _ (Permutation_sym argsort_perm)), in_seq. lia.
Qed.

End Selection.

Lemma StronglySorted_app_inv {A} (R : A -> A -> Prop) (l1 l2 : list A) :
  StronglySorted R (l1 ++ l2) ->
  forall x y, In x l1 -> In y l2 -> R x y.
Proof.
  induction l1 as [|a l1 IH]; simpl; intros Hs x y Hx Hy; [destruct Hx |].
  apply StronglySorted_inv in Hs as [Hs Ha].
  destruct Hx as [<- | Hx].
  - rewrite List.Forall_forall in Ha. apply Ha, in_or_app. now right.
  - now apply (IH Hs).
Qed.

Lemma NoDup_drop {A} (k : nat) (l : list A) : List.NoDup l -> List.NoDup (drop k l).
Proof.
  revert l. induction k as [|k IH]; intros l Hl; [exact Hl |].
  destruct l as [|a l]; [constructor |]. simpl. apply IH.
  now apply List.NoDup_cons_iff in Hl.
Qed.

Lemma NoDup_rev_list {A} (l : list A) : List.NoDup l -> List.NoDup (rev l).
Proof.
  intros Hl. apply (Permutation_NoDup (Permutation_rev l) Hl).
Qed.

(** The selection never names a class twice. *)
Lemma top_indices_NoDup (probs : list Q) (n : Z) : List.NoDup (top_indices probs n).
Proof.
  unfold top_indices, slice_from.
  apply NoDup_rev_list, NoDup_drop, argsort_NoDup.
Qed.

(** The selection is always the upper end of the ranking: a class that is
    left out has no more probability than any class that is selected. *)
Lemma top_indices_largest (probs : list Q) (n : Z) (i j : nat) :
  In i (top_indices probs n) ->
  (j < length probs)%nat ->
  ~ In j (top_indices probs n) ->
  ranks_below probs j i.
Proof.
  unfold top_indices, slice_from.
  set (k := Z.to_nat _). intros Hi Hj Hnot.
  apply in_rev in Hi.
  assert (Hjk : In j (take k (argsort probs))).
  { apply In_argsort in Hj. rewrite <- (firstn_skipn k (argsort probs)) in Hj.
    apply in_app_or in Hj as [Hj | Hj]; [exact Hj |].
    exfalso. apply Hnot. now apply in_rev in Hj. }
  pose proof (argsort_sorted probs) as Hs.
  rewrite <- (firstn_skipn k (argsort probs)) in Hs.
  exact (StronglySorted_app_inv _ _ _ Hs j i Hjk Hi).
Qed.

(** The number of selected classes, for every bound: with [n >= 1] the [n]
    most probable ones or all of them, with [n <= 0] all but the [- n] least
    probable ones. *)
Lemma top_indices_length_any (probs : list Q) (n : Z) :
  Z.of_nat (length (top_indices probs n))
  = if (0 <? n)%Z then Z.min n (Z.of_nat (length probs))
    else Z.max (Z.of_nat (length probs) + n) 0.
Proof.
  unfold top_indices, slice_from.
  rewrite length_rev, length_drop, argsort_length.
  destruct (Z.ltb_spec (- n) 0); destruct (Z.ltb_spec 0 n); lia.
Qed.

Lemma zip3_shape (f : str -> str) (names : list str) (cs : list Q) :
  length names = length cs ->
  map disease_en (zip3 names (map f names) cs) = names
  /\ Forall (fun p => disease_translated p = f (disease_en p))
       (zip3 names (map f names) cs).
Proof.
  revert cs. induction names as [|d names IH]; intros [|c cs]; simpl;
    try discriminate; intros Hlen.
  - split; [reflexivity | constructor].
  - destruct (IH cs) as [Hn Hf]; [congruence |].
    split; [now rewrite Hn | constructor; [reflexivity | exact Hf]].
Qed.

Lemma inverse_transform_ok (classes : list str) (idx : list nat) :
  Forall (fun i => (i < length classes)%nat) idx ->
  inverse_transform classes idx = Ok (map (fun i => nth i classes []) idx).
Proof.
  intros H. unfold inverse_transform.
  replace (forallb _ idx) with true; [reflexivity |].
  symmetry. apply forallb_forall. rewrite List.Forall_forall in H.
  intros i Hi. apply Nat.ltb_lt. now apply H.
Qed.

Lemma inverse_transform_inv (classes : list str) (idx : list nat) (names : list str) :
  inverse_transform classes idx = Ok names ->
  names = map (fun i => nth i classes []) idx
  /\ Forall (fun i => (i < length classes)%nat) idx.
Proof.
  unfold inverse_transform. destruct (forallb _ idx) eqn:Hall; [| discriminate].
  intros H. injection H as <-. split; [reflexivity |].
  apply List.Forall_forall. intros i Hi.
  rewrite forallb_forall in Hall. now apply Nat.ltb_lt, Hall.
Qed.

Lemma NoDup_map_nth (classes : list str) (idx : list nat) :
  List.NoDup classes -> List.NoDup idx ->
  Forall (fun i => (i < length classes)%nat) idx ->
  List.NoDup (map (fun i => nth i classes []) idx).
Proof.
  intros Hc Hidx Hrange. induction Hidx as [|i idx Hi Hidx IH]; simpl; [constructor |].
  apply List.Forall_cons_iff in Hrange as [Hlt Hrange].
  constructor; [| now apply IH].
  intros Hin. apply in_map_iff in Hin as (j & Hj & Hjin).
  rewrite List.Forall_forall in Hrange.
  assert (j = i) as ->; [| contradiction].
  apply (proj1 (List.NoDup_nth classes []) Hc); auto.
Qed.

Section PredictTopSelection.

Context (E : deployment).

(** Everything a successful [predict_top] is made of. *)
Lemma predict_top_inv (text : str) (lang : option str) (n : Z) (w w' : world)
    (top : list prediction) :
  predict_top E text lang n w = (Ok top, w') ->
  exists text_en probs l,
    translate E text = Ok text_en
    /\ softmax_probs E text_en = Ok probs
    /\ (lang = Some l \/ (lang = None /\ detect E text = Ok l))
    /\ Forall (fun i => (i < length (le_classes E))%nat) (top_indices probs n)
    /\ top = zip3 (map (fun i => nth i (le_classes E) []) (top_indices probs n))
               (map (translated_name l)
                  (map (fun i => nth i (le_classes E) []) (top_indices probs n)))
               (map (prob_at probs) (top_indices probs n)).
Proof.
  unfold predict_top. run_m.
  destruct (translate E text) as [text_en|]; [| discriminate].
  destruct (softmax_probs E text_en) as [probs|] eqn:Hprobs; [| discriminate].
  destruct (inverse_transform _ _) as [names|] eqn:Hnames; [| discriminate].
  apply inverse_transform_inv in Hnames as [-> Hrange].
  destruct lang as [l|].
  - intros H. injection H as <- <-. exists text_en, probs, l. repeat split; auto.
  - destruct (detect E text) as [l|] eqn:Hdetect; [| discriminate].
    intros H. injection H as <- <-. exists text_en, probs, l. repeat split; auto.
Qed.

Lemma predict_top_classes (text : str) (lang : option str) (n : Z) (w w' : world)
    (top : list prediction) :
  predict_top E text lang n w = (Ok top, w') ->
  exists text_en probs,
    translate E text = Ok text_en
    /\ softmax_probs E text_en = Ok probs
    /\ Forall (fun i => (i < length (le_classes E))%nat) (top_indices probs n)
    /\ map disease_en top
       = map (fun i => nth i (le_classes E) []) (top_indices probs n)
    /\ map pred_confidence top = map (prob_at probs) (top_indices probs n).
Proof.
  intros Hrun.
  destruct (predict_top_inv _ _ _ _ _ _ Hrun)
    as (text_en & probs & l & Ht & Hp & _ & Hrange & ->).
  exists text_en, probs. repeat split; auto.
  - apply zip3_shape. now rewrite !length_map.
  - apply zip3_confidences; now rewrite !length_map.
Qed.

(** The number of entries [predict_top] returns, for every bound: with
    [top_n >= 1] it is the smaller of [top_n] and the number of classes the
    model scores; with [top_n <= 0] it is the number of classes plus
    [top_n], or 0 when that is negative. *)
Theorem predict_top_length (text : str) (lang : option str) (n : Z)
    (w w' : world) (top : list prediction) :
  predict_top E text lang n w = (Ok top, w') ->
  exists text_en probs,
    translate E text = Ok text_en
    /\ softmax_probs E text_en = Ok probs
    /\ Z.of_nat (length top)
       = if (0 <? n)%Z then Z.min n (Z.of_nat (length probs))
         else Z.max (Z.of_nat (length probs) + n) 0.
Proof.
  intros Hrun.
  destruct (predict_top_classes _ _ _ _ _ _ Hrun)
    as (text_en & probs & Ht & Hp & _ & _ & Hconf).
  exists text_en, probs. repeat split; auto.
  apply (f_equal (@length Q)) in Hconf. rewrite !length_map in Hconf.
  rewrite Hconf. apply top_indices_length_any.
Qed.

(** [predict_top] returns the upper end of the ranking and names no class
    twice: the entries stand for distinct class indices, and a class that is
    left out has no more probability than any entry's confidence. *)
Theorem predict_top_keeps_the_most_probable (text : str) (lang : option str)
    (n : Z) (w w' : world) (top : list prediction) :
  predict_top E text lang n w = (Ok top, w') ->
  exists text_en probs idx,
    translate E text = Ok text_en
    /\ softmax_probs E text_en = Ok probs
    /\ List.NoDup idx
    /\ map disease_en top = map (fun i => nth i (le_classes E) []) idx
    /\ map pred_confidence top = map (prob_at probs) idx
    /\ forall j p,
         (j < length probs)%nat -> ~ In j idx -> In p top ->
         (prob_at probs j <= pred_confidence p)%Q.
Proof.
  intros Hrun.
  destruct (predict_top_classes _ _ _ _ _ _ Hrun)
    as (text_en & probs & Ht & Hp & _ & Hnames & Hconf).
  exists text_en, probs, (top_indices probs n).
  repeat split; auto using top_indices_NoDup.
  intros j p Hj Hnot Hin.
  apply (in_map pred_confidence) in Hin. rewrite Hconf in Hin.
  apply in_map_iff in Hin as (i & <- & Hi).
  exact (top_indices_largest probs n i j Hi Hj Hnot).
Qed.

(** When the label encoder's class names are distinct, so are the English
    disease names [predict_top] returns. *)
Theorem predict_top_distinct_diseases (text : str) (lang : option str) (n : Z)
    (w w' : world) (top : list prediction) :
  List.NoDup (le_classes E) ->
  predict_top E text lang n w = (Ok top, w') ->
  List.NoDup (map disease_en top).
Proof.
  intros Hclasses Hrun.
  destruct (predict_top_classes _ _ _ _ _ _ Hrun)
    as (text_en & probs & _ & _ & Hrange & -> & _).
  apply NoDup_map_nth; auto using top_indices_NoDup.
Qed.

(** [predict_disease] returns a most probable class: no class the model
    scores has more probability than the confidence of the prediction. *)
Theorem predict_disease_most_probable (text : str) (lang : option str)
    (w w' : world) (best : prediction) :
  predict_disease E text lang w = (Ok best, w') ->
  exists text_en probs,
    translate E text = Ok text_en
    /\ softmax_probs E text_en = Ok probs
    /\ In (pred_confidence best) probs
    /\ Forall (fun q => (q <= pred_confidence best)%Q) probs.
Proof.
  unfold predict_disease. run_m.
  destruct (predict_top E text lang 10 w) as [[top|e] w1] eqn:Hrun; [| discriminate].
  destruct top as [|first rest]; [discriminate |].
  intros H. injection H as -> ->.
  destruct (predict_top_classes _ _ _ _ _ _ Hrun)
    as (text_en & probs & Ht & Hp & _ & _ & Hconf).
  exists text_en, probs. repeat split; auto.
  - pose proof (top_indices_in_range probs 10) as Hrange.
    destruct (top_indices probs 10) as [|i idx]; [discriminate |].
    simpl in Hconf. injection Hconf as -> _.
    apply List.Forall_cons_iff in Hrange as [Hi _]. unfold prob_at. now apply nth_In.
  - apply List.Forall_forall. intros q Hq.
    destruct (In_nth _ _ 0%Q Hq) as (j & Hj & <-).
    pose proof (top_indices_sorted probs 10) as Hsorted.
    pose proof (top_indices_largest probs 10) as Hlargest.
    destruct (top_indices probs 10) as [|i idx] eqn:Hidx; [discriminate |].
    simpl in Hconf. injection Hconf as -> _.
    destruct (in_dec Nat.eq_dec j (i :: idx)) as [[<- | Hin] | Hout].
    + apply Qle_refl.
    + apply StronglySorted_inv in Hsorted as [_ Hall].
      rewrite List.Forall_forall in Hall. exact (Hall j Hin).
    + apply (Hlargest i j); [now left | exact Hj | exact Hout].
Qed.

(** When translation and model answer, the encoder knows every class the
    model scores and a language is given, [predict_top] cannot fail; and
    [predict_disease] then fails exactly when the model scores no class at
    all, with [IndexError]. *)
Theorem predict_disease_fails_only_without_classes (text l text_en : str)
    (probs : list Q) (w : world) :
  translate E text = Ok text_en ->
  softmax_probs E text_en = Ok probs ->
  (length probs <= length (le_classes E))%nat ->
  (forall n, exists top, fst (predict_top E text (Some l) n w) = Ok top)
  /\ (probs = [] -> fst (predict_disease E text (Some l) w) = Raise IndexError)
  /\ (probs <> [] -> exists best, fst (predict_disease E text (Some l) w) = Ok best).
Proof.
  intros Ht Hp Hlen.
  assert (Hrun : forall n,
    predict_top E text (Some l) n w
    = (Ok (zip3 (map (fun i => nth i (le_classes E) []) (top_indices probs n))
             (map (translated_name l)
                (map (fun i => nth i (le_classes E) []) (top_indices probs n)))
             (map (prob_at probs) (top_indices probs n))),
       snd (log_classifier text_en w))).
  { intros n. unfold predict_top. run_m. rewrite Ht, Hp.
    rewrite inverse_transform_ok; [reflexivity |].
    eapply List.Forall_impl; [| apply top_indices_in_range].
    simpl. intros i Hi. lia. }
  split; [| split].
  - intros n. rewrite Hrun. eexists. reflexivity.
  - intros ->. unfold predict_disease. run_m. rewrite Hrun. reflexivity.
  - intros Hne. unfold predict_disease. run_m. rewrite Hrun.
    pose proof (top_indices_length probs 10 ltac:(lia)) as Hl.
    destruct (top_indices probs 10) as [|i idx]; simpl.
    + destruct probs; [contradiction | simpl in Hl; lia].
    + eexists. reflexivity.
Qed.

End PredictTopSelection.

(** ** Translated disease names *)

Lemma translation_entry_languages (d : str) (names : gmap str str) (lang : str) :
  disease_translations !! d = Some names ->
  lang <> py "ar" -> lang <> py "fr" ->
  names !! lang = None.
Proof.
  unfold disease_translations. intros H Har Hfr.
  assert (Hentry : forall a f : str,
            ({[ py "ar" := a; py "fr" := f ]} : gmap str str) !! lang = None).
  { intros a f. rewrite lookup_insert_ne by congruence.
    apply lookup_singleton_ne. congruence. }
  repeat (apply lookup_insert_Some in H as [[_ <-] | [_ H]]; [apply Hentry |]).
  apply lookup_singleton_Some in H as [_ <-]. apply Hentry.
Qed.

Lemma translation_entry_diseases (d : str) (names : gmap str str) :
  disease_translations !! d = Some names -> In d translated_diseases.
Proof.
  unfold disease_translations, translated_diseases. intros H.
  repeat (apply lookup_insert_Some in H as [[<- _] | [_ H]]; [simpl; tauto |]).
  apply lookup_singleton_Some in H as [<- _]. simpl. tauto.
Qed.

(** [predict_top] shows a name other than the English one only for Arabic
    and French and only for the five diseases of [disease_translations]:
    for every other language, English included, and for every other disease
    the translated name is the English name. *)
Theorem translated_name_falls_back (lang d : str) :
  translated_name lang d <> d ->
  (lang = py "ar" \/ lang = py "fr") /\ In d translated_diseases.
Proof.
  unfold translated_name. intros Hne.
  destruct (disease_translations !! d) as [names|] eqn:Hd; simpl in Hne.
  - split; [| exact (translation_entry_diseases d names Hd)].
    destruct (decide (lang = py "ar")) as [|Har]; [now left |].
    destruct (decide (lang = py "fr")) as [|Hfr]; [now right |].
    rewrite (translation_entry_languages d names lang Hd Har Hfr) in Hne.
    now destruct Hne.
  - rewrite lookup_empty in Hne. now destruct Hne.
Qed.

(** With a language other than Arabic and French, every entry
    [predict_top] returns shows the English disease name. *)
Theorem predict_top_english_names (E : deployment) (text l : str) (n : Z)
    (w w' : world) (top : list prediction) :
  l <> py "ar" -> l <> py "fr" ->
  predict_top E text (Some l) n w = (Ok top, w') ->
  Forall (fun p => disease_translated p = disease_en p) top.
Proof.
  intros Har Hfr Hrun.
  destruct (predict_top_inv E _ _ _ _ _ _ Hrun)
    as (text_en & probs & l' & _ & _ & [Hl | [Hl _]] & _ & ->); [| discriminate].
  injection Hl as <-.
  eapply List.Forall_impl; [| apply zip3_shape; now rewrite !length_map].
  intros p ->. unfold translated_name.
  destruct (disease_translations !! disease_en p) as [names|] eqn:Hd; simpl.
  - now rewrite (translation_entry_languages _ names l Hd Har Hfr).
  - now rewrite lookup_empty.
Qed.

(** ** The handlers, request by request *)

Section Requests.

Context (E : deployment).

Implicit Types (input message : str) (w v : world).

(** The outcome of [predict_top] does not depend on the world it runs in,
    and it adds the same entries to the classifier log of any world. *)
Lemma predict_top_any_world (text : str) (lang : option str) (n : Z) w v :
  fst (predict_top E text lang n v) = fst (predict_top E text lang n w)
  /\ current_lang (snd (predict_top E text lang n v)) = current_lang v
  /\ chat_history (snd (predict_top E text lang n v)) = chat_history v
  /\ exists calls,
       classifier_calls (snd (predict_top E text lang n w))
         = calls ++ classifier_calls w
       /\ classifier_calls (snd (predict_top E text lang n v))
         = calls ++ classifier_calls v
       /\ (forall top, fst (predict_top E text lang n w) = Ok top ->
             exists text_en, translate E text = Ok text_en /\ calls = [text_en]).
Proof.
  unfold predict_top. run_m.
  destruct (translate E text) as [text_en|e].
  2:{ repeat split; auto. exists []. repeat split; auto. discriminate. }
  destruct (softmax_probs E text_en) as [probs|e].
  2:{ repeat split; auto. exists [text_en]. repeat split; auto. discriminate. }
  destruct (inverse_transform _ _) as [names|e].
  2:{ repeat split; auto. exists [text_en]. repeat split; auto. discriminate. }
  destruct lang as [l|].
  { repeat split; auto. exists [text_en]. repeat split; auto.
    intros top _. now exists text_en. }
  destruct (detect E text) as [l|e].
  - repeat split; auto. exists [text_en]. repeat split; auto.
    intros top _. now exists text_en.
  - repeat split; auto. exists [text_en]. repeat split; auto. discriminate.
Qed.

Lemma predict_disease_inv (text : str) (lang : option str) w w' (best : prediction) :
  predict_disease E text lang w = (Ok best, w') ->
  exists rest, predict_top E text lang 10 w = (Ok (best :: rest), w').
Proof.
  unfold predict_disease. run_m.
  destruct (predict_top E text lang 10 w) as [[top|e] w1]; [| discriminate].
  destruct top as [|first rest]; [discriminate |].
  intros H. injection H as -> ->. now exists rest.
Qed.

(** The language after [chatbot] is the one before it or one of the three
    codes; the history is the one before it. *)
Lemma chatbot_frame input w :
  (current_lang (snd (chatbot E input w)) = current_lang w
   \/ known_lang (current_lang (snd (chatbot E input w))))
  /\ chat_history (snd (chatbot E input w)) = chat_history w.
Proof.
  destruct (asks_ar E input) eqn:Har.
  { rewrite (chatbot_switch_ar E input w Har). split; [right; now left | reflexivity]. }
  destruct (asks_en E input) eqn:Hen.
  { rewrite (chatbot_switch_en E input w Har Hen).
    split; [right; right; now left | reflexivity]. }
  destruct (asks_fr E input) eqn:Hfr.
  { rewrite (chatbot_switch_fr E input w Har Hen Hfr).
    split; [right; right; now right | reflexivity]. }
  destruct (first_greeting (lower (unicode_lower E) input) greetings) as [l|] eqn:Hg.
  - rewrite (chatbot_greets E input w l Har Hen Hfr Hg). split; [now left | reflexivity].
  - rewrite (chatbot_predicts E input w Har Hen Hfr Hg).
    pose proof (predict_disease_frame E input (Some (current_lang w)) w) as [Hl Hh].
    destruct (predict_disease _ _ _ _) as [[best|e] w']; simpl in *;
      (split; [now left | exact Hh]).
Qed.

(** What [chat_endpoint] does to the two globals: the language as [chatbot]
    leaves it, the history unchanged or one turn longer. *)
Lemma chat_endpoint_frame message w :
  current_lang (snd (chat_endpoint E message w))
    = current_lang (snd (chatbot E message w))
  /\ (chat_history (snd (chat_endpoint E message w)) = chat_history w
      \/ exists said,
           chat_history (snd (chat_endpoint E message w))
           = chat_history w ++ [{| user := message; bot := said |}]).
Proof.
  pose proof (chatbot_frame message w) as [_ Hh].
  unfold chat_endpoint. run_m.
  destruct (chatbot E message w) as [[r|e] w1]; simpl in *; [| split; auto].
  destruct (subscript_response r) as [said|e]; simpl; [| split; auto].
  match goal with
  | |- context [predict_top E ?t ?l ?n ?u] =>
      pose proof (predict_top_frame E t l n u) as [Hl2 Hh2];
      destruct (predict_top E t l n u) as [[top|e] w2]
  end; simpl in *; rewrite Hl2, Hh2, Hh; split; eauto.
Qed.

(** Everything a successful [POST /chat] is made of. *)
Lemma chat_endpoint_inv message w w' (payload : chat_payload) :
  chat_endpoint E message w = (Ok payload, w') ->
  exists best rest text_en d,
    translate E message = Ok text_en
    /\ fst (predict_top E message (Some (current_lang w)) 10 w) = Ok (best :: rest)
    /\ chat payload = Dict d
    /\ disease d = disease_translated best
    /\ confidence d = pred_confidence best
    /\ top10 payload = map top_entry_of (best :: rest)
    /\ classifier_calls w' = text_en :: text_en :: classifier_calls w.
Proof.
  unfold chat_endpoint. run_m.
  destruct (chatbot E message w) as [[[s|d]|e] w1] eqn:Hbot; simpl; try discriminate.
  destruct (asks_ar E message) eqn:Har;
    [rewrite (chatbot_switch_ar E message w Har) in Hbot; discriminate |].
  destruct (asks_en E message) eqn:Hen;
    [rewrite (chatbot_switch_en E message w Har Hen) in Hbot; discriminate |].
  destruct (asks_fr E message) eqn:Hfr;
    [rewrite (chatbot_switch_fr E message w Har Hen Hfr) in Hbot; discriminate |].
  destruct (first_greeting (lower (unicode_lower E) message) greetings) as [l|] eqn:Hg;
    [rewrite (chatbot_greets E message w l Har Hen Hfr Hg) in Hbot; discriminate |].
  rewrite (chatbot_predicts E message w Har Hen Hfr Hg) in Hbot.
  destruct (predict_disease E message (Some (current_lang w)) w) as [[best|e] w0] eqn:Hbest;
    [| discriminate].
  injection Hbot as <- <-.
  destruct (predict_disease_inv _ _ _ _ _ Hbest) as [rest Htop].
  pose proof (predict_top_frame E message (Some (current_lang w)) 10 w) as [Hlang _].
  rewrite Htop in Hlang. simpl in Hlang. rewrite Hlang.
  match goal with
  | |- context [predict_top E message (Some (current_lang w)) 10 ?u] =>
      destruct (predict_top_any_world message (Some (current_lang w)) 10 w u)
        as (Hfst & _ & _ & calls & Hcw & Hcu & Hcalls);
      destruct (predict_top E message (Some (current_lang w)) 10 u) as [[top|e] w2]
  end; simpl in *; [| discriminate].
  rewrite Htop in Hfst, Hcw, Hcalls. simpl in *. injection Hfst as ->.
  destruct (Hcalls _ eq_refl) as (text_en & Ht & ->).
  intros H. injection H as <- <-.
  exists best, rest, text_en. eexists. repeat split; try reflexivity; auto.
  - now rewrite Htop.
  - rewrite Hcu, Hcw. reflexivity.
Qed.

(** [chatbot] and [chat_endpoint] always pass the current language to
    [predict_top], so language detection is never asked: with any other
    detector they behave the same. *)
Theorem handlers_never_detect_language (d : str -> outcome str) input w :
  chatbot (with_detect E d) input w = chatbot E input w
  /\ chat_endpoint (with_detect E d) input w = chat_endpoint E input w.
Proof. split; reflexivity. Qed.

(** A [POST /chat] request that returns has translated the message and run
    the classification model on it twice: once for the reply and once more
    for the top ten. *)
Theorem chat_endpoint_classifies_twice message w w' (payload : chat_payload) :
  chat_endpoint E message w = (Ok payload, w') ->
  exists text_en,
    translate E message = Ok text_en
    /\ classifier_calls w' = text_en :: text_en :: classifier_calls w.
Proof.
  intros Hrun.
  destruct (chat_endpoint_inv _ _ _ _ Hrun) as (best & rest & text_en & d & Ht & _ & _ & _ & _ & _ & Hc).
  now exists text_en.
Qed.

(** When the second call finds the services answering as the first did,
    the handler is the one of the deployment. *)
Lemma predict_top_with_services translate' softmax_probs' text lang n w :
  translate' text = translate E text ->
  (forall text_en,
     translate E text = Ok text_en -> softmax_probs' text_en = softmax_probs E text_en) ->
  predict_top (with_services E translate' softmax_probs') text lang n w
  = predict_top E text lang n w.
Proof.
  intros Htr Hsm. unfold predict_top. run_m. cbn [translate softmax_probs le_classes detect with_services].
  rewrite Htr. destruct (translate E text) as [text_en|e] eqn:Ht; [| reflexivity].
  rewrite (Hsm _ eq_refl). reflexivity.
Qed.

Lemma chat_endpoint_later_same translate' softmax_probs' message w :
  translate' message = translate E message ->
  (forall text_en,
     translate E message = Ok text_en -> softmax_probs' text_en = softmax_probs E text_en) ->
  chat_endpoint_later E translate' softmax_probs' message w = chat_endpoint E message w.
Proof.
  intros Htr Hsm. unfold chat_endpoint_later, chat_endpoint. run_m.
  destruct (chatbot E message w) as [[r|e] w1]; [| reflexivity].
  destruct (subscript_response r) as [said|e]; [| reflexivity].
  now rewrite (predict_top_with_services _ _ _ _ _ _ Htr Hsm).
Qed.

(** In the object [POST /chat] returns, the top ten is not empty and the
    disease and the confidence of the chat reply are those of its first
    entry, provided the translation service and the model answer the
    handler's second classification of the message as they answered the
    first, inside [chatbot]. *)
Theorem chat_reply_is_first_of_top10 translate' softmax_probs' message w w'
    (payload : chat_payload) :
  translate' message = translate E message ->
  (forall text_en,
     translate E message = Ok text_en -> softmax_probs' text_en = softmax_probs E text_en) ->
  chat_endpoint_later E translate' softmax_probs' message w = (Ok payload, w') ->
  exists d first rest,
    chat payload = Dict d
    /\ top10 payload = first :: rest
    /\ te_disease_translated first = disease d
    /\ te_confidence first = confidence d.
Proof.
  intros Htr Hsm Hrun. rewrite (chat_endpoint_later_same _ _ _ _ Htr Hsm) in Hrun.
  destruct (chat_endpoint_inv _ _ _ _ Hrun)
    as (best & rest & text_en & d & _ & _ & Hd & Hdis & Hconf & Htop & _).
  exists d, (top_entry_of best), (map top_entry_of rest).
  repeat split; auto.
Qed.

(** A language-switch message makes [POST /chat] fail with [TypeError], but
    only after [chatbot] has stored the new language: the switch is in
    force for the requests that follow, the history is untouched and the
    classifier was not run. *)
Theorem chat_endpoint_switch_fails_after_switching input w (k : switch) :
  asks E input k = true ->
  (forall k', In k' (tested_before k) -> asks E input k' = false) ->
  chat_endpoint E input w = (Raise TypeError, with_lang (switch_code k) w).
Proof.
  intros Hk Hbefore. apply chat_endpoint_text_reply with (s := switch_ack k).
  destruct k; simpl in Hbefore.
  - now apply chatbot_switch_ar.
  - apply chatbot_switch_en; [apply (Hbefore ToArabic); now left | exact Hk].
  - apply chatbot_switch_fr;
      [apply (Hbefore ToArabic); now left
      | apply (Hbefore ToEnglish); right; now left
      | exact Hk].
Qed.


(** Serving requests one after another only ever appends to the history:
    what was there stays in front, at most one turn is added per request,
    and every added turn quotes one of the messages served. *)
Theorem history_is_append_only (messages : list str) w :
  exists added,
    chat_history (after_requests E messages w) = chat_history w ++ added
    /\ (length added <= length messages)%nat
    /\ Forall (fun t => In (user t) messages) added.
Proof.
  revert w. induction messages as [|m rest IH]; intros w; simpl.
  - exists []. rewrite app_nil_r. repeat split; auto.
  - destruct (IH (snd (chat_endpoint E m w))) as (added & Hadd & Hlen & Hall).
    destruct (chat_endpoint_frame m w) as [_ [Hsame | [said Hone]]].
    + exists added. rewrite Hadd, Hsame. repeat split; [lia |].
      eapply List.Forall_impl; [| exact Hall]. intros t Ht. now right.
    + exists ({| user := m; bot := said |} :: added).
      rewrite Hadd, Hone, <- app_assoc. repeat split; [simpl; lia |].
      constructor; [now left |].
      eapply List.Forall_impl; [| exact Hall]. intros t Ht. now right.
Qed.

(** However many requests are served, [current_lang] holds one of the three
    language codes if it held one at the start. *)
Theorem language_stays_known (messages : list str) w :
  known_lang (current_lang w) ->
  known_lang (current_lang (after_requests E messages w)).
Proof.
  revert w. induction messages as [|m rest IH]; intros w Hw; simpl; [exact Hw |].
  apply IH. destruct (chat_endpoint_frame m w) as [-> _].
  destruct (chatbot_frame m w) as [[-> | Hk] _]; assumption.
Qed.

End Requests.

(** ** [main.py] and [app.py] against [api.py] *)

Lemma any_in_swap (s a b : str) : any_in s [a; b] = any_in s [b; a].
Proof. unfold any_in. simpl. rewrite !orb_false_r. apply orb_comm. Qed.

Section OtherFiles.

Context (E : deployment).

Lemma main_switch_tests (input : str) :
  any_in (lower (unicode_lower E) input) MainPy.switch_ar = asks_ar E input
  /\ any_in (lower (unicode_lower E) input) MainPy.switch_en = asks_en E input
  /\ any_in (lower (unicode_lower E) input) MainPy.switch_fr = asks_fr E input.
Proof.
  unfold asks_en, asks_fr, MainPy.switch_en, MainPy.switch_fr, switch_en, switch_fr.
  repeat split; apply any_in_swap.
Qed.

Lemma app_chatbot_greets (input : str) (w : world) (lang : str) :
  asks_ar E input = false -> asks_en E input = false -> asks_fr E input = false ->
  first_greeting (lower (unicode_lower E) input) greetings = Some lang ->
  AppPy.chatbot E input w
  = (Ok (default (py "Hello 👋, tell me your symptoms?")
           (greeting_responses !! current_lang w)), w).
Proof.
  intros Har Hen Hfr Hg. unfold AppPy.chatbot.
  destruct (main_switch_tests input) as (-> & -> & ->).
  rewrite Har, Hen, Hfr, Hg. run_m. now rewrite greeting_reply_ok.
Qed.

(** [main.py] serves exactly what [api.py] serves: its [chatbot] and its
    [chat_endpoint] give the same outcome and the same world for every
    message. *)
Theorem main_py_agrees_with_api_py (input : str) (w : world) :
  MainPy.chatbot E input w = chatbot E input w
  /\ MainPy.chat_endpoint E input w = chat_endpoint E input w.
Proof.
  assert (Hbot : forall v, MainPy.chatbot E input v = chatbot E input v).
  { intros v. unfold MainPy.chatbot, chatbot.
    destruct (main_switch_tests input) as (-> & -> & ->). reflexivity. }
  split; [apply Hbot |].
  unfold MainPy.chat_endpoint, chat_endpoint. run_m. now rewrite Hbot.
Qed.

(** The [chatbot] of [app.py] takes the same branch as the one of [api.py]
    and leaves the same world.  Where [api.py] answers with a string, it
    gives that string; where [api.py] answers with a dictionary, it gives
    the text laid out from that dictionary's disease, confidence,
    description and precautions; where [api.py] fails, it fails alike. *)
Theorem app_py_chatbot_agrees_with_api_py (input : str) (w : world) :
  snd (AppPy.chatbot E input w) = snd (chatbot E input w)
  /\ fst (AppPy.chatbot E input w)
     = match fst (chatbot E input w) with
       | Ok (Text s) => Ok s
       | Ok (Dict d) =>
           Ok (AppPy.response_text (disease d) (confidence d)
                 (description d) (precautions d))
       | Raise e => Raise e
       end.
Proof.
  unfold AppPy.chatbot. destruct (main_switch_tests input) as (-> & -> & ->).
  destruct (asks_ar E input) eqn:Har.
  { rewrite (chatbot_switch_ar E input w Har). split; reflexivity. }
  destruct (asks_en E input) eqn:Hen.
  { rewrite (chatbot_switch_en E input w Har Hen). split; reflexivity. }
  destruct (asks_fr E input) eqn:Hfr.
  { rewrite (chatbot_switch_fr E input w Har Hen Hfr). split; reflexivity. }
  destruct (first_greeting (lower (unicode_lower E) input) greetings) as [l|] eqn:Hg.
  - rewrite (chatbot_greets E input w l Har Hen Hfr Hg). run_m.
    rewrite greeting_reply_ok. split; reflexivity.
  - rewrite (chatbot_predicts E input w Har Hen Hfr Hg). run_m.
    destruct (predict_disease E input (Some (current_lang w)) w) as [[best|e] w1];
      split; reflexivity.
Qed.

Lemma user_messages_app (a b : list (str * str)) :
  AppPy.user_messages (a ++ b) = AppPy.user_messages a ++ AppPy.user_messages b.
Proof. unfold AppPy.user_messages. now rewrite List.filter_app, map_app. Qed.

(** What one run of the script does when a message is sent: the message
    and the reply are appended to the session history, and the top ten are
    computed for the message just sent, in the language [chatbot] left. *)
Lemma app_run_sent (session : option (list (str * str))) (c : N) (input response : str)
    (w w1 : world) :
  AppPy.chatbot E (c :: input) w = (Ok response, w1) ->
  AppPy.run E session true (c :: input) w
  = match predict_top E (c :: input) (Some (current_lang w1)) 10 w1 with
    | (Ok top, w2) =>
        (Ok (default [] session ++ [(py "You", c :: input); (py "Bot", response)],
             Some top), w2)
    | (Raise e, w2) => (Raise e, w2)
    end.
Proof.
  intros Hbot. unfold AppPy.run.
  replace (true && negb (Nat.eqb (length (c :: input)) 0)) with true by reflexivity.
  run_m. rewrite Hbot.
  set (hist := default [] session ++ [(py "You", c :: input); (py "Bot", response)]).
  assert (Hlen : negb (Nat.eqb (length hist) 0) = true).
  { unfold hist. rewrite length_app, Nat.add_comm. reflexivity. }
  assert (Hlast : rev (AppPy.user_messages hist)
                  = (c :: input) :: rev (AppPy.user_messages (default [] session))).
  { unfold hist. rewrite user_messages_app, rev_app_distr.
    replace (AppPy.user_messages [(py "You", c :: input); (py "Bot", response)])
      with [c :: input] by (now vm_compute).
    reflexivity. }
  rewrite Hlen, Hlast.
  destruct (predict_top E (c :: input) (Some (current_lang w1)) 10 w1) as [[top|e] w2];
    reflexivity.
Qed.

(** In the Streamlit front end the classifier is run on every message that
    is sent, greetings included: after a greeting has been answered, the
    script still translates it and runs the model on it for the chart. *)
Theorem app_py_classifies_greetings (session : option (list (str * str)))
    (c : N) (input text_en : str) (w : world) :
  (forall k, asks E (c :: input) k = false) ->
  (exists lang, first_greeting (lower (unicode_lower E) (c :: input)) greetings = Some lang) ->
  translate E (c :: input) = Ok text_en ->
  classifier_calls (snd (AppPy.chatbot E (c :: input) w)) = classifier_calls w
  /\ classifier_calls (snd (AppPy.run E session true (c :: input) w))
     = text_en :: classifier_calls w.
Proof.
  intros Hno [lang Hg] Ht.
  assert (Har : asks_ar E (c :: input) = false) by apply (Hno ToArabic).
  assert (Hen : asks_en E (c :: input) = false) by apply (Hno ToEnglish).
  assert (Hfr : asks_fr E (c :: input) = false) by apply (Hno ToFrench).
  pose proof (app_chatbot_greets (c :: input) w lang Har Hen Hfr Hg) as Hbot.
  split; [now rewrite Hbot |].
  rewrite (app_run_sent session c input _ w w Hbot).
  unfold predict_top. run_m. rewrite Ht.
  destruct (softmax_probs E text_en); [| reflexivity].
  destruct (inverse_transform _ _); reflexivity.
Qed.

(** A run in which nothing is sent, or in which the input box is empty,
    leaves the session history and the language as they are: [chatbot] is
    not called. *)
Theorem app_py_nothing_sent (session : option (list (str * str))) (send : bool)
    (input : str) (w : world) :
  send = false \/ input = [] ->
  current_lang (snd (AppPy.run E session send input w)) = current_lang w
  /\ forall hist chart w',
       AppPy.run E session send input w = (Ok (hist, chart), w') ->
       hist = default [] session.
Proof.
  intros Hidle.
  assert (Hguard : send && negb (Nat.eqb (length input) 0) = false).
  { destruct Hidle as [-> | ->]; [reflexivity | apply andb_false_r]. }
  unfold AppPy.run. run_m. rewrite Hguard.
  destruct (negb (Nat.eqb (length (default [] session)) 0)).
  - destruct (rev (AppPy.user_messages (default [] session))) as [|last_input rest].
    + split; [reflexivity |]. intros hist chart w' H. now injection H as <- _ _.
    + match goal with
      | |- context [predict_top E ?t ?l ?n ?u] =>
          pose proof (predict_top_frame E t l n u) as [Hl _];
          destruct (predict_top E t l n u) as [[top|e] w2]
      end; simpl in *; (split; [exact Hl |]); intros hist chart w' H;
        [now injection H as <- _ _ | discriminate].
  - split; [reflexivity |]. intros hist chart w' H. now injection H as <- _ _.
Qed.

End OtherFiles.

(** ** [GET /find_doctors] *)

Section FindDoctors.

Import DoctorsApi.

Context (directory : list (str * str) -> http_outcome).

Implicit Types (disease symptom : option str).



Lemma reshape_names (doc : json) :
  member_names (reshape doc)
    = [py "name"; py "specialization"; py "hospital"; py "address";
       py "contact"; py "rating"]
  \/ member_names (reshape doc) = [py "raw_entry"].
Proof. destruct doc; simpl; auto. Qed.

(** Every payload [GET /find_doctors] answers with has one of four sets of
    keys: [error]; [message] and [raw]; [message] alone; [count] and
    [doctors].  In the last case [count] is the number of entries of
    [doctors], there is at least one entry, and every entry has either the
    six doctor fields or the single field [raw_entry]. *)
Theorem find_doctors_payload_shapes disease symptom (payload : json) :
  find_doctors directory disease symptom = Ok payload ->
  member_names payload = [py "error"]
  \/ member_names payload = [py "message"; py "raw"]
  \/ member_names payload = [py "message"]
  \/ exists entries,
       payload = JObj [ (py "count", JNum (inject_Z (Z.of_nat (length entries))));
                        (py "doctors", JArr entries) ]
       /\ entries <> []
       /\ Forall (fun entry =>
                    member_names entry
                      = [py "name"; py "specialization"; py "hospital"; py "address";
                         py "contact"; py "rating"]
                    \/ member_names entry = [py "raw_entry"]) entries.
Proof.
  unfold find_doctors, get_doctors.
  destruct (directory _) as [message | r].
  { intros H. injection H as <-. now left. }
  destruct (raises_for_status r).
  { intros H. injection H as <-. now left. }
  destruct (json_body r) as [data | e].
  2:{ destruct e; try discriminate. intros H. injection H as <-. now left. }
  unfold shape. destruct (select_doctors data) as [found|].
  2:{ intros H. injection H as <-. right. now left. }
  destruct (truthy found) eqn:Ht; cbn [negb].
  2:{ intros H. injection H as <-. right. right. now left. }
  destruct (iterate found) as [docs|e] eqn:Hit; [| discriminate].
  intros H. injection H as <-. right. right. right.
  exists (map reshape docs). unfold doctors_payload. rewrite length_map.
  split; [reflexivity |]. split.
  - pose proof (iterate_truthy found docs Ht Hit) as Hne.
    destruct docs; [contradiction | discriminate].
  - apply List.Forall_map, List.Forall_forall. intros doc _. apply reshape_names.
Qed.

(** When the ["doctors"] member is not a list but a text or a mapping, the
    client still builds a doctor list from it: one raw entry for every
    character of the text, or for every key of the mapping. *)
Theorem doctors_text_is_listed_by_character disease symptom (r : http_response)
    (members : list (str * json)) :
  directory (request_params disease symptom) = Responded r ->
  raises_for_status r = false ->
  json_body r = Ok (JObj members) ->
  (forall c s,
     obj_get members (py "doctors") = Some (JStr (c :: s)) ->
     find_doctors directory disease symptom
     = Ok (JObj [ (py "count", JNum (inject_Z (Z.of_nat (length (c :: s)))));
                  (py "doctors",
                   JArr (map (fun ch => JObj [ (py "raw_entry", JStr [ch]) ]) (c :: s))) ]))
  /\ (forall m ms,
        obj_get members (py "doctors") = Some (JObj (m :: ms)) ->
        find_doctors directory disease symptom
        = Ok (JObj [ (py "count", JNum (inject_Z (Z.of_nat (length (m :: ms)))));
                     (py "doctors",
                      JArr (map (fun kv => JObj [ (py "raw_entry", JStr (fst kv)) ])
                              (m :: ms))) ])).
Proof.
  intros Hreq Hstatus Hbody. unfold find_doctors.
  rewrite (get_doctors_parsed directory _ _ _ _ Hreq Hstatus Hbody).
  unfold shape, doctors_payload. simpl select_doctors. split.
  - intros c s ->. cbn [truthy iterate negb length Nat.eqb].
    rewrite !length_map, map_map. reflexivity.
  - intros m ms ->. cbn [truthy iterate negb length Nat.eqb].
    rewrite !length_map, map_map. reflexivity.
Qed.

End FindDoctors.

(** ** [POST /image] *)

Lemma argmax_from_spec (rest seen : list Q) (best : nat) :
  (best < length seen)%nat ->
  (forall j, (j < length seen)%nat -> (nth j seen 0 <= nth best seen 0)%Q) ->
  let k := argmax_from best (nth best seen 0%Q) (length seen) rest in
  (k < length (seen ++ rest))%nat
  /\ forall j, (j < length (seen ++ rest))%nat ->
       (nth j (seen ++ rest) 0 <= nth k (seen ++ rest) 0)%Q.
Proof.
  revert seen best. induction rest as [|x rest IH]; intros seen best Hbest Hmax; simpl.
  - rewrite app_nil_r. auto.
  - replace (seen ++ x :: rest) with ((seen ++ [x]) ++ rest) by now rewrite <- app_assoc.
    replace (S (length seen)) with (length (seen ++ [x]))
      by (rewrite length_app; simpl; lia).
    assert (Hx : nth (length seen) (seen ++ [x]) 0%Q = x).
    { rewrite app_nth2 by lia. now rewrite Nat.sub_diag. }
    destruct (Qle_bool x (nth best seen 0%Q)) eqn:Hle.
    + apply Qle_bool_iff in Hle.
      replace (nth best seen 0%Q) with (nth best (seen ++ [x]) 0%Q)
        by (now rewrite app_nth1).
      apply IH; [rewrite length_app; simpl; lia |].
      intros j Hj. rewrite length_app in Hj. simpl in Hj.
      rewrite (app_nth1 seen [x] 0%Q Hbest).
      destruct (Nat.eq_dec j (length seen)) as [-> | Hne].
      * now rewrite Hx.
      * rewrite app_nth1 by lia. apply Hmax. lia.
    + assert (Hlt : (nth best seen 0 < x)%Q).
      { apply Qnot_le_lt. intros H. apply Qle_bool_iff in H. congruence. }
      pose proof (IH (seen ++ [x]) (length seen)) as Hstep.
      rewrite Hx in Hstep. apply Hstep; [rewrite length_app; simpl; lia |].
      intros j Hj. rewrite length_app in Hj. simpl in Hj.
      destruct (Nat.eq_dec j (length seen)) as [-> | Hne].
      * rewrite Hx. apply Qle_refl.
      * rewrite app_nth1 by lia. apply Qle_trans with (nth best seen 0%Q);
          [apply Hmax; lia | now apply Qlt_le_weak].
Qed.

(** [argmax] picks a class whose score no other class exceeds. *)
Lemma argmax_spec (scores : list Q) (k : nat) :
  argmax scores = Some k ->
  (k < length scores)%nat
  /\ forall j, (j < length scores)%nat -> (nth j scores 0 <= nth k scores 0)%Q.
Proof.
  destruct scores as [|x rest]; [discriminate |]. simpl argmax.
  intros H. injection H as <-.
  apply (argmax_from_spec rest [x] 0%nat); simpl; [lia |].
  intros j Hj. assert (j = 0%nat) as -> by lia. apply Qle_refl.
Qed.

Section ImageEndpoint.

Context {image : Type} (V : vision image).

(** What [POST /image] returns: the label [id2label] gives to a class whose
    logit no other class exceeds, and as details the completion Groq gave
    for the prompt that quotes exactly this label. *)
Theorem detect_disease_reports_top_class (contents : list N) (r : image_payload) :
  detect_disease V contents = Ok r ->
  exists img logits k,
    open_image V contents = Ok img
    /\ image_logits V img = Ok logits
    /\ (k < length logits)%nat
    /\ (forall j, (j < length logits)%nat -> (nth j logits 0 <= nth k logits 0)%Q)
    /\ id2label V !! k = Some (detected_disease r)
    /\ groq_complete V (groq_prompt (detected_disease r)) = Ok (details r).
Proof.
  unfold detect_disease, predict_skin_disease, get_disease_info_groq.
  destruct (open_image V contents) as [img|] eqn:Himg; [| discriminate].
  destruct (image_logits V img) as [logits|] eqn:Hlogits; [| discriminate].
  destruct (argmax logits) as [k|] eqn:Hk; [| discriminate].
  destruct (id2label V !! k) as [label|] eqn:Hlabel; [| discriminate].
  destruct (groq_complete V (groq_prompt label)) as [info|] eqn:Hinfo; [| discriminate].
  intros H. injection H as <-. simpl.
  destruct (argmax_spec logits k Hk) as [Hlt Hmax].
  exists img, logits, k. repeat split; auto.
Qed.

End ImageEndpoint.

(** ** Runs of the further properties on the small deployments *)

Lemma predict_top_length_witness :
  exists top w',
    predict_top demo (py "fever") (Some (py "en")) (-1) world0 = (Ok top, w')
    /\ exists text_en probs,
         translate demo (py "fever") = Ok text_en
         /\ softmax_probs demo text_en = Ok probs
         /\ Z.of_nat (length top)
            = if (0 <? -1)%Z then Z.min (-1) (Z.of_nat (length probs))
              else Z.max (Z.of_nat (length probs) + -1) 0.
Proof.
  eexists _, _. split.
  - vm_compute. reflexivity.
  - eapply (predict_top_length demo (py "fever") (Some (py "en")) (-1) world0).
    vm_compute. reflexivity.
Defined.

Lemma predict_top_keeps_the_most_probable_witness :
  exists top w',
    predict_top demo (py "fever") (Some (py "en")) 2 world0 = (Ok top, w')
    /\ exists text_en probs idx,
         translate demo (py "fever") = Ok text_en
         /\ softmax_probs demo text_en = Ok probs
         /\ List.NoDup idx
         /\ map disease_en top = map (fun i => nth i (le_classes demo) []) idx
         /\ map pred_confidence top = map (prob_at probs) idx
         /\ forall j p,
              (j < length probs)%nat -> ~ In j idx -> In p top ->
              (prob_at probs j <= pred_confidence p)%Q.
Proof.
  eexists _, _. split.
  - vm_compute. reflexivity.
  - eapply (predict_top_keeps_the_most_probable demo (py "fever") (Some (py "en")) 2 world0).
    vm_compute. reflexivity.
Defined.

Lemma predict_top_distinct_diseases_witness :
  exists top w',
    predict_top demo (py "fever") (Some (py "en")) 10 world0 = (Ok top, w')
    /\ List.NoDup (map disease_en top).
Proof.
  eexists _, _. split.
  - vm_compute. reflexivity.
  - eapply (predict_top_distinct_diseases demo (py "fever") (Some (py "en")) 10 world0).
    + vm_compute. repeat constructor; simpl; intuition discriminate.
    + vm_compute. reflexivity.
Defined.

Lemma predict_disease_most_probable_witness :
  exists best w',
    predict_disease demo (py "fever") (Some (py "en")) world0 = (Ok best, w')
    /\ exists text_en probs,
         translate demo (py "fever") = Ok text_en
         /\ softmax_probs demo text_en = Ok probs
         /\ In (pred_confidence best) probs
         /\ Forall (fun q => (q <= pred_confidence best)%Q) probs.
Proof.
  eexists _, _. split.
  - vm_compute. reflexivity.
  - eapply (predict_disease_most_probable demo (py "fever") (Some (py "en")) world0).
    vm_compute. reflexivity.
Defined.

Lemma predict_disease_fails_only_without_classes_witness :
  (forall n, exists top, fst (predict_top demo (py "fever") (Some (py "en")) n world0) = Ok top)
  /\ (demo_probs = [] ->
        fst (predict_disease demo (py "fever") (Some (py "en")) world0) = Raise IndexError)
  /\ (demo_probs <> [] ->
        exists best, fst (predict_disease demo (py "fever") (Some (py "en")) world0) = Ok best).
Proof.
  apply (predict_disease_fails_only_without_classes demo (py "fever") (py "en")
           (py "fever") demo_probs world0).
  - reflexivity.
  - reflexivity.
  - simpl. lia.
Defined.

Lemma translated_name_falls_back_witness :
  (py "fr" = py "ar" \/ py "fr" = py "fr") /\ In (py "Malaria") translated_diseases.
Proof.
  apply (translated_name_falls_back (py "fr") (py "Malaria")).
  vm_compute. discriminate.
Defined.

Lemma predict_top_english_names_witness :
  exists top w',
    predict_top demo (py "fever") (Some (py "en")) 10 world0 = (Ok top, w')
    /\ Forall (fun p => disease_translated p = disease_en p) top.
Proof.
  eexists _, _. split.
  - vm_compute. reflexivity.
  - eapply (predict_top_english_names demo (py "fever") (py "en") 10 world0).
    + vm_compute. discriminate.
    + vm_compute. discriminate.
    + vm_compute. reflexivity.
Defined.

Lemma chat_endpoint_classifies_twice_witness :
  exists payload w',
    chat_endpoint demo (py "fever and cough") world0 = (Ok payload, w')
    /\ exists text_en,
         translate demo (py "fever and cough") = Ok text_en
         /\ classifier_calls w' = text_en :: text_en :: classifier_calls world0.
Proof.
  eexists _, _. split.
  - vm_compute. reflexivity.
  - eapply (chat_endpoint_classifies_twice demo (py "fever and cough") world0).
    vm_compute. reflexivity.
Defined.

Lemma chat_reply_is_first_of_top10_witness :
  exists payload w',
    chat_endpoint_later demo (fun s => Ok s) (fun _ => Ok demo_probs)
      (py "fever and cough") world0 = (Ok payload, w')
    /\ exists d first rest,
         chat payload = Dict d
         /\ top10 payload = first :: rest
         /\ te_disease_translated first = disease d
         /\ te_confidence first = confidence d.
Proof.
  eexists _, _. split.
  - vm_compute. reflexivity.
  - eapply (chat_reply_is_first_of_top10 demo (fun s => Ok s) (fun _ => Ok demo_probs)
              (py "fever and cough") world0).
    + reflexivity.
    + intros text_en _. reflexivity.
    + vm_compute. reflexivity.
Defined.

(** Without that agreement the reply and the top ten can name different
    diseases: here the model scores the second call otherwise. *)
Lemma chat_reply_differs_from_top10 :
  exists payload w' d first rest,
    chat_endpoint_later demo (fun s => Ok s) (fun _ => Ok [ (6 # 10); (1 # 10); (3 # 10) ]%Q)
      (py "fever and cough") world0 = (Ok payload, w')
    /\ chat payload = Dict d
    /\ top10 payload = first :: rest
    /\ disease d = py "Malaria"
    /\ te_disease_translated first = py "Common Cold".
Proof.
  eexists _, _, _, _, _. vm_compute. repeat split.
Qed.

Lemma chat_endpoint_switch_fails_after_switching_witness :
  chat_endpoint demo (py "speak english please") (with_lang (py "fr") world0)
  = (Raise TypeError, with_lang (switch_code ToEnglish) (with_lang (py "fr") world0)).
Proof.
  apply (chat_endpoint_switch_fails_after_switching demo (py "speak english please")
           (with_lang (py "fr") world0) ToEnglish).
  - vm_compute. reflexivity.
  - intros k' [<- | []]. vm_compute. reflexivity.
Defined.


Lemma language_stays_known_witness :
  known_lang (current_lang (after_requests demo [py "speak french"; py "fever"] world0)).
Proof.
  apply (language_stays_known demo [py "speak french"; py "fever"] world0).
  right. now left.
Defined.

Lemma app_py_classifies_greetings_witness :
  classifier_calls (snd (AppPy.chatbot demo (104%N :: py "ello") world0))
    = classifier_calls world0
  /\ classifier_calls (snd (AppPy.run demo None true (104%N :: py "ello") world0))
     = py "hello" :: classifier_calls world0.
Proof.
  apply (app_py_classifies_greetings demo None 104%N (py "ello") (py "hello") world0).
  - intros []; vm_compute; reflexivity.
  - exists (py "en"). vm_compute. reflexivity.
  - vm_compute. reflexivity.
Defined.

Lemma app_py_nothing_sent_witness :
  current_lang (snd (AppPy.run demo (Some [(py "You", py "fever"); (py "Bot", py "...")])
                       true [] world0))
    = current_lang world0
  /\ forall hist chart w',
       AppPy.run demo (Some [(py "You", py "fever"); (py "Bot", py "...")]) true [] world0
         = (Ok (hist, chart), w') ->
       hist = default [] (Some [(py "You", py "fever"); (py "Bot", py "...")]).
Proof.
  apply (app_py_nothing_sent demo (Some [(py "You", py "fever"); (py "Bot", py "...")])
           true [] world0).
  now right.
Defined.


Lemma find_doctors_payload_shapes_witness :
  exists payload,
    find_doctors (DoctorsApi.answers 200 (Ok DoctorsApi.two_doctors))
      (Some (py "Diabetes")) None = Ok payload
    /\ (member_names payload = [py "error"]
        \/ member_names payload = [py "message"; py "raw"]
        \/ member_names payload = [py "message"]
        \/ exists entries,
             payload
             = DoctorsApi.JObj
                 [ (py "count", DoctorsApi.JNum (inject_Z (Z.of_nat (length entries))));
                   (py "doctors", DoctorsApi.JArr entries) ]
             /\ entries <> []
             /\ Forall (fun entry =>
                          member_names entry
                            = [py "name"; py "specialization"; py "hospital";
                               py "address"; py "contact"; py "rating"]
                          \/ member_names entry = [py "raw_entry"]) entries).
Proof.
  eexists. split.
  - vm_compute. reflexivity.
  - eapply (find_doctors_payload_shapes
             (DoctorsApi.answers 200 (Ok DoctorsApi.two_doctors))
             (Some (py "Diabetes")) None).
    vm_compute. reflexivity.
Defined.

Lemma doctors_text_is_listed_by_character_witness :
  find_doctors
    (DoctorsApi.answers 200
       (Ok (DoctorsApi.JObj [ (py "doctors", DoctorsApi.JStr (110%N :: py "o")) ])))
    (Some (py "Diabetes")) None
  = Ok (DoctorsApi.JObj
          [ (py "count", DoctorsApi.JNum (inject_Z (Z.of_nat (length (110%N :: py "o")))));
            (py "doctors",
             DoctorsApi.JArr
               (map (fun ch => DoctorsApi.JObj [ (py "raw_entry", DoctorsApi.JStr [ch]) ])
                  (110%N :: py "o"))) ]).
Proof.
  refine (proj1 (doctors_text_is_listed_by_character
                   (DoctorsApi.answers 200
                      (Ok (DoctorsApi.JObj
                               [ (py "doctors", DoctorsApi.JStr (110%N :: py "o")) ])))
                   (Some (py "Diabetes")) None _ _ eq_refl eq_refl eq_refl) _ _ _).
  vm_compute. reflexivity.
Defined.

Lemma detect_disease_reports_top_class_witness :
  exists r,
    detect_disease demo_vision [255%N; 216%N] = Ok r
    /\ exists img logits k,
         open_image demo_vision [255%N; 216%N] = Ok img
         /\ image_logits demo_vision img = Ok logits
         /\ (k < length logits)%nat
         /\ (forall j, (j < length logits)%nat -> (nth j logits 0 <= nth k logits 0)%Q)
         /\ id2label demo_vision !! k = Some (detected_disease r)
         /\ groq_complete demo_vision (groq_prompt (detected_disease r)) = Ok (details r).
Proof.
  eexists. split.
  - vm_compute. reflexivity.
  - eapply (detect_disease_reports_top_class demo_vision [255%N; 216%N]).
    vm_compute. reflexivity.
Defined.
